(** * Allowance reconciliation and transaction execution of the 31Third
      integrator scripts

    A shallow embedding of [src/basket-swap.js] (wallet rebalancing) and
    [src/single-swap.js] (single swap): the allowance check, the fan-out of
    approvals under [Promise.all], the gas estimate with its fallback, the
    signed submission and its single retry.

    Every [await] on the node, the token contract or the wallet is a
    [Request] answered by a gateway that owns its own state; an async
    function is a tree of such requests ([Prog]).  Console output is not
    modelled. *)

From Stdlib Require Import ZArith List String Ascii Bool Lia.
Import ListNotations.
Open Scope string_scope.
Open Scope list_scope.
Open Scope Z_scope.

Set Implicit Arguments.

(** ** JavaScript values read from the API response *)

(** The fields of the quote and of the rebalancing response are plain JSON
    values; an absent field reads as [JUndefined].  Numbers are restricted
    to integers. *)
Inductive JsValue : Type :=
| JUndefined
| JNull
| JBool (b : bool)
| JNumber (n : Z)
| JString (s : string).

(** ToBoolean, as used by [!x], [x ? a : b] and [x || y]; [x || y] is
    written [if truthy x then x else y]. *)
Definition truthy (v : JsValue) : bool :=
  match v with
  | JUndefined | JNull => false
  | JBool b => b
  | JNumber n => negb (n =? 0)
  | JString s => negb (s =? "")%string
  end.

(** [s.includes(sub)] *)
Fixpoint includes (s sub : string) : bool :=
  String.prefix sub s ||
  match s with
  | EmptyString => false
  | String _ s' => includes s' sub
  end.

(** ** Errors and results *)

Record JsError : Type := mkError { name : string; message : string }.

(** [new Error(msg)] *)
Definition Error (msg : string) : JsError := mkError "Error" msg.

(** What reading a property of [undefined] throws. *)
Definition TypeError (msg : string) : JsError := mkError "TypeError" msg.

Inductive Result (A : Type) : Type :=
| Ok (a : A)
| Err (e : JsError).
Arguments Ok {A} a.
Arguments Err {A} e.

(** ** ethers values *)

(** [ethers.BigNumber]: an integer of arbitrary precision. *)
Definition BigNumber : Type := Z.

Definition bn_lt (a b : BigNumber) : bool := a <? b.
Definition bn_mul (a b : BigNumber) : BigNumber := a * b.
(** [div] truncates toward zero. *)
Definition bn_div (a b : BigNumber) : BigNumber := Z.quot a b.

(** [ethers.constants.MaxUint256] *)
Definition MaxUint256 : BigNumber := 2 ^ 256 - 1.

Record Wallet : Type := mkWallet { wallet_address : string }.

Record TransactionResponse : Type := mkTxResponse { hash : string }.

Record Receipt : Type := mkReceipt {
  blockNumber : Z;
  gasUsed : BigNumber;
  transactionHash : string
}.

Record Network : Type := mkNetwork { net_chainId : Z }.

(** The object handed to [wallet.signTransaction]. *)
Record Transaction : Type := mkTransaction {
  to : JsValue;
  data : JsValue;
  value : BigNumber;
  gasLimit : BigNumber;
  gasPrice : BigNumber;
  nonce : Z;
  chainId : Z
}.

(** [transaction.gasLimit = g] *)
Definition set_gasLimit (t : Transaction) (g : BigNumber) : Transaction :=
  mkTransaction (to t) (data t) (value t) g (gasPrice t) (nonce t) (chainId t).

(** ** Requests to the chain gateway and the signer *)

Inductive Request : Type :=
| Allowance (token : JsValue) (owner : string) (spender : JsValue)
    (** [tokenContract.allowance(owner, spender)] *)
| Approve (token : JsValue) (spender : JsValue) (amount : BigNumber)
    (gasLimit : Z) (gasPrice : BigNumber)
    (** [tokenContract.approve(spender, amount, {gasLimit, gasPrice})] *)
| Wait (tx : TransactionResponse) (confirmations : Z)
    (** [tx.wait(confirmations)] *)
| GetGasPrice
| EstimateGas (from : string) (to : JsValue) (data : JsValue) (value : BigNumber)
| GetTransactionCount (address : string) (blockTag : string)
| GetNetwork
| SignTransaction (t : Transaction)
| SendTransaction (signedTx : string).

Definition resp_type (r : Request) : Type :=
  match r with
  | Allowance _ _ _ => BigNumber
  | Approve _ _ _ _ _ => TransactionResponse
  | Wait _ _ => Receipt
  | GetGasPrice => BigNumber
  | EstimateGas _ _ _ _ => BigNumber
  | GetTransactionCount _ _ => Z
  | GetNetwork => Network
  | SignTransaction _ => string
  | SendTransaction _ => TransactionResponse
  end.

(** ** Async functions as request trees *)

Inductive Prog (A : Type) : Type :=
| Ret (a : A)
| Throw (e : JsError)
| Await (r : Request) (k : Result (resp_type r) -> Prog A).
Arguments Ret {A} a.
Arguments Throw {A} e.
Arguments Await {A} r k.

Fixpoint bind {A B} (p : Prog A) (f : A -> Prog B) : Prog B :=
  match p with
  | Ret a => f a
  | Throw e => Throw e
  | Await r k => Await r (fun x => bind (k x) f)
  end.

(** [try { p } catch (error) { h error }] *)
Fixpoint try_catch {A} (p : Prog A) (h : JsError -> Prog A) : Prog A :=
  match p with
  | Ret a => Ret a
  | Throw e => h e
  | Await r k => Await r (fun x => try_catch (k x) h)
  end.

(** [await r]: a rejected promise throws at the [await]. *)
Definition await (r : Request) : Prog (resp_type r) :=
  Await r (fun x => match x with Ok a => Ret a | Err e => Throw e end).

(** A synchronous call that may throw. *)
Definition lift {A} (x : Result A) : Prog A :=
  match x with Ok a => Ret a | Err e => Throw e end.

Declare Scope prog_scope.
Delimit Scope prog_scope with prog.
Notation "x <- p ;; q" := (bind p (fun x => q))
  (at level 61, p at next level, right associativity) : prog_scope.
Notation "p ;; q" := (bind p (fun _ => q))
  (at level 61, right associativity) : prog_scope.
Open Scope prog_scope.

(** ** The plan objects returned by the 31Third API *)

Record TokenInfo : Type := mkToken {
  tok_address : JsValue;
  tok_symbol : JsValue
}.

(** An entry of [rebalancingData.requiredAllowances].  [token = None] is an
    entry without a [token] object. *)
Record RequiredAllowance : Type := mkRequiredAllowance {
  token : option TokenInfo;
  allowanceTarget : JsValue;
  neededAllowance : JsValue
}.

(** The fields of the rebalancing response that concern the execution part
    of [executeWalletRebalancing].  [requiredAllowances = None] is an absent
    array.  [rb_gasPrice] stands for a gas price that the response may carry
    (the optional gas-price hint of a plan); the function reads
    [txHandler], [txData], [txValue] and [requiredAllowances] and no other
    field. *)
Record RebalancingData : Type := mkRebalancingData {
  txHandler : JsValue;
  txData : JsValue;
  txValue : JsValue;
  requiredAllowances : option (list RequiredAllowance);
  rb_gasPrice : JsValue
}.

(** [quoteData.transaction] *)
Record QuoteTransaction : Type := mkQuoteTransaction {
  q_to : JsValue;
  q_data : JsValue;
  q_value : JsValue;
  q_gasPrice : JsValue
}.

(** [transaction = None] is a quote without a [transaction] object. *)
Record QuoteData : Type := mkQuoteData {
  transaction : option QuoteTransaction
}.

(** [error.message.includes("gas limit") ||
     error.message.includes("UNPREDICTABLE_GAS_LIMIT")] *)
Definition gas_limit_error (error : JsError) : bool :=
  includes (message error) "gas limit" ||
  includes (message error) "UNPREDICTABLE_GAS_LIMIT".

(** ** The async functions *)

(** [ethers.BigNumber.from] applied to a value of the API response: the
    library is not part of the repository, so its conversion is a parameter.
    Applied to a decimal literal of the source it is written as the number
    itself. *)
Class Ethers : Type := { BigNumber_from : JsValue -> Result BigNumber }.

Section Programs.

Context `{Ethers}.

(** [checkAndSetAllowance(provider, wallet, tokenAddress, spenderAddress,
    amount)], basket-swap.js 91-132 and, with the same body,
    single-swap.js 63-104. *)
Definition checkAndSetAllowance (wallet : Wallet)
    (tokenAddress spenderAddress : JsValue) (amount : BigNumber) : Prog bool :=
  currentAllowance <-
    await (Allowance tokenAddress (wallet_address wallet) spenderAddress) ;;
  if bn_lt currentAllowance amount then
    let approvalAmount := MaxUint256 in
    price <- await GetGasPrice ;;
    approveTx <-
      await (Approve tokenAddress spenderAddress approvalAmount 100000 price) ;;
    approveReceipt <- await (Wait approveTx 1) ;;
    Ret true
  else
    Ret false.

(** The callback mapped over [requiredAllowances], basket-swap.js 147-167. *)
Definition approvalPromise (wallet : Wallet) (allowance : RequiredAllowance)
  : Prog bool :=
  match token allowance with
  | None =>
      Throw (TypeError "Cannot read properties of undefined (reading 'address')")
  | Some tok =>
      let tokenAddress := tok_address tok in
      let spenderAddress := allowanceTarget allowance in
      let needed := neededAllowance allowance in
      if negb (truthy tokenAddress) || negb (truthy spenderAddress)
         || negb (truthy needed)
      then Throw (Error "Incomplete allowance data")
      else
        amount <- lift (BigNumber_from needed) ;;
        checkAndSetAllowance wallet tokenAddress spenderAddress amount
  end.

(** The three awaits of one submission: sign, send, wait for one
    confirmation (basket-swap.js 362-376 and 385-391, single-swap.js
    197-211 and 220-226). *)
Definition signSendWait (t : Transaction) : Prog Receipt :=
  signedTx <- await (SignTransaction t) ;;
  txResponse <- await (SendTransaction signedTx) ;;
  receipt <- await (Wait txResponse 1) ;;
  Ret receipt.

(** *** basket-swap.js *)

(** The gas estimate with its default, basket-swap.js 316-329. *)
Definition rebalancing_gasLimit (wallet : Wallet) (tx_to tx_data : JsValue)
    (tx_value : BigNumber) : Prog BigNumber :=
  try_catch
    (estimate <-
       await (EstimateGas (wallet_address wallet) tx_to tx_data tx_value) ;;
     Ret (bn_div (bn_mul estimate 120) 100))
    (fun error => Ret 3000000).

(** Building the transaction to sign, basket-swap.js 305-345.  The gas
    price is [await provider.getGasPrice()] and nothing else. *)
Definition rebalancing_transaction (wallet : Wallet)
    (rebalancingData : RebalancingData) : Prog Transaction :=
  tx_value <-
    lift (if truthy (txValue rebalancingData)
          then BigNumber_from (txValue rebalancingData)
          else Ok 0) ;;
  tx_gasPrice <- await GetGasPrice ;;
  let tx_to := txHandler rebalancingData in
  let tx_data := txData rebalancingData in
  gasLimit <- rebalancing_gasLimit wallet tx_to tx_data tx_value ;;
  nonce <- await (GetTransactionCount (wallet_address wallet) "latest") ;;
  network <- await GetNetwork ;;
  Ret (mkTransaction tx_to tx_data tx_value gasLimit tx_gasPrice nonce
         (net_chainId network)).

(** The submission and its retry, basket-swap.js 359-395. *)
Definition rebalancing_submit (transaction : Transaction) : Prog Receipt :=
  try_catch
    (signSendWait transaction)
    (fun error =>
       if gas_limit_error error then
         signSendWait
           (set_gasLimit transaction
              (bn_div (bn_mul (gasLimit transaction) 150) 100))
       else Throw error).

(** *** single-swap.js *)

(** USDT, and [ethers.utils.parseUnits("1", 6)]. *)
Definition fromTokenAddress : string :=
  "0xdAC17F958D2ee523a2206206994597C13D831ec7".
Definition swap_amount : BigNumber := 1000000.

(** Building the transaction to sign, single-swap.js 159-185.  The value is
    [BigNumber.from(quoteData.transaction.value || "0")]. *)
Definition swap_transaction (wallet : Wallet) (qt : QuoteTransaction)
  : Prog Transaction :=
  tx_value <-
    lift (if truthy (q_value qt) then BigNumber_from (q_value qt) else Ok 0) ;;
  tx_gasPrice <-
    (if truthy (q_gasPrice qt)
     then lift (BigNumber_from (q_gasPrice qt))
     else await GetGasPrice) ;;
  let gasLimit := 500000 in
  nonce <- await (GetTransactionCount (wallet_address wallet) "latest") ;;
  network <- await GetNetwork ;;
  Ret (mkTransaction (q_to qt) (q_data qt) tx_value gasLimit tx_gasPrice nonce
         (net_chainId network)).

(** The submission and its retry, single-swap.js 194-230. *)
Definition swap_submit (transaction : Transaction) : Prog Receipt :=
  try_catch
    (signSendWait transaction)
    (fun error =>
       if gas_limit_error error then
         signSendWait (set_gasLimit transaction 750000)
       else Throw error).

(** [swapWithThirtyOneThird()] of single-swap.js from line 147 on, for the
    quote [quoteData] that [getSwapQuote] returned. *)
Definition swapWithThirtyOneThird (wallet : Wallet) (quoteData : QuoteData)
  : Prog Receipt :=
  match transaction quoteData with
  | None => Throw (TypeError "Cannot read properties of undefined (reading 'to')")
  | Some qt =>
      let spenderAddress := q_to qt in
      checkAndSetAllowance wallet (JString fromTokenAddress) spenderAddress
        swap_amount ;;
      transaction <- swap_transaction wallet qt ;;
      swap_submit transaction
  end.

End Programs.

(** ** Running against a gateway *)

(** The state of everything outside the script (node, chain, signer) and its
    answer to each request.  Nothing is assumed about either. *)
Class Gateway (World : Type) : Type := {
  respond : forall r : Request, World -> Result (resp_type r) * World
}.

Section Semantics.

Context {World : Type} `{Gateway World} `{Ethers}.

(** A run yields the result, the world it leaves and the requests it made,
    oldest first. *)
Definition Run (A : Type) : Type := World -> Result A * World * list Request.

Fixpoint run {A} (p : Prog A) : Run A :=
  fun w =>
    match p with
    | Ret a => (Ok a, w, [])
    | Throw e => (Err e, w, [])
    | Await r k =>
        let (x, w1) := respond r w in
        let '(res, w2, l) := run (k x) w1 in
        (res, w2, r :: l)
    end.

Definition ret_run {A} (a : A) : Run A := fun w => (Ok a, w, []).

Definition bind_run {A B} (m : Run A) (f : A -> Run B) : Run B :=
  fun w =>
    let '(r, w1, l1) := m w in
    match r with
    | Ok a => let '(r2, w2, l2) := f a w1 in (r2, w2, l1 ++ l2)
    | Err e => (Err e, w1, l1)
    end.

(** *** [Promise.all] over async functions already started

    Each element is an async function suspended at an [await] (or already
    settled).  The node answers the pending requests in an order the script
    does not control: [sched] names, answer by answer, the task whose pending
    request is answered next.  [Promise.all] rejects with the first
    rejection and fulfils once every task has returned.  A request enters
    the log when it is answered, and the log of [Promise.all] holds the
    requests answered until it settles.  When [sched] runs out the tasks
    left are completed in list order, so every finite interleaving is the
    run of some [sched]. *)

Fixpoint first_rejection {A} (ts : list (Prog A)) : option JsError :=
  match ts with
  | [] => None
  | Throw e :: _ => Some e
  | _ :: ts' => first_rejection ts'
  end.

(** Answer the pending request of one task. *)
Definition deliver {A} (p : Prog A) (w : World)
  : Prog A * World * list Request :=
  match p with
  | Await r k => let (x, w1) := respond r w in (k x, w1, [r])
  | _ => (p, w, [])
  end.

Fixpoint deliver_nth {A} (i : nat) (ts : list (Prog A)) (w : World)
  {struct ts} : list (Prog A) * World * list Request :=
  match ts with
  | [] => ([], w, [])
  | p :: ts' =>
      match i with
      | O => let '(p', w1, l) := deliver p w in (p' :: ts', w1, l)
      | S i' => let '(ts'', w1, l) := deliver_nth i' ts' w in (p :: ts'', w1, l)
      end
  end.

Fixpoint run_each {A} (ts : list (Prog A)) : Run (list A) :=
  fun w =>
    match ts with
    | [] => (Ok [], w, [])
    | p :: ts' =>
        let '(r, w1, l1) := run p w in
        match r with
        | Err e => (Err e, w1, l1)
        | Ok a =>
            let '(rs, w2, l2) := run_each ts' w1 in
            (match rs with Ok vs => Ok (a :: vs) | Err e => Err e end,
             w2, l1 ++ l2)
        end
    end.

Fixpoint promise_all {A} (sched : list nat) (ts : list (Prog A))
  : Run (list A) :=
  fun w =>
    match first_rejection ts with
    | Some e => (Err e, w, [])
    | None =>
        match sched with
        | [] => run_each ts w
        | i :: sched' =>
            let '(ts', w1, l1) := deliver_nth i ts w in
            let '(r, w2, l2) := promise_all sched' ts' w1 in
            (r, w2, l1 ++ l2)
        end
    end.

(** [handleRequiredAllowances(provider, wallet, requiredAllowances)],
    basket-swap.js 137-171.  Both exits return [undefined]. *)
Definition handleRequiredAllowances (sched : list nat) (wallet : Wallet)
    (requiredAllowances : option (list RequiredAllowance)) : Run JsValue :=
  match requiredAllowances with
  | None => ret_run JUndefined
  | Some entries =>
      if (List.length entries =? 0)%nat then ret_run JUndefined
      else
        let approvalPromises :=
          map (approvalPromise wallet) entries in
        bind_run (promise_all sched approvalPromises)
          (fun _ => ret_run JUndefined)
  end.

(** [executeWalletRebalancing()] of basket-swap.js from line 296 on, for the
    response [rebalancingData] that [requestWalletRebalancing] returned.
    [None] is the [return;] of line 299. *)
Definition executeWalletRebalancing (sched : list nat) (wallet : Wallet)
    (rebalancingData : RebalancingData) : Run (option Receipt) :=
  if negb (truthy (txHandler rebalancingData))
     || negb (truthy (txData rebalancingData))
  then ret_run None
  else
    bind_run
      (handleRequiredAllowances sched wallet
         (requiredAllowances rebalancingData))
      (fun _ =>
         run (transaction <-
                rebalancing_transaction wallet rebalancingData ;;
              receipt <- rebalancing_submit transaction ;;
              Ret (Some receipt))).

End Semantics.

(** ** Observations on request logs *)

Definition is_approve (r : Request) : bool :=
  match r with Approve _ _ _ _ _ => true | _ => false end.

Definition is_estimate (r : Request) : bool :=
  match r with EstimateGas _ _ _ _ => true | _ => false end.

Definition is_sign (r : Request) : bool :=
  match r with SignTransaction _ => true | _ => false end.

Definition is_send (r : Request) : bool :=
  match r with SendTransaction _ => true | _ => false end.

Definition count_approvals (l : list Request) : nat :=
  List.length (filter is_approve l).

Definition count_true (bs : list bool) : nat :=
  List.length (filter (fun b : bool => b) bs).

Definition not_estimate (r : Request) : bool := negb (is_estimate r).

(** The requests an allowance check can make. *)
Definition is_allowance_call (r : Request) : bool :=
  match r with
  | Allowance _ _ _ | GetGasPrice | Approve _ _ _ _ _ | Wait _ _ => true
  | _ => false
  end.

(** No transaction of the plan is signed or sent before a gas estimate has
    been asked for. *)
Fixpoint estimate_precedes_submission (l : list Request) : bool :=
  match l with
  | [] => true
  | r :: l' =>
      if is_estimate r then true
      else if is_sign r || is_send r then false
      else estimate_precedes_submission l'
  end.

(** An entry that fails the check of basket-swap.js line 153, or has no
    [token] object to read the address from. *)
Definition incomplete (allowance : RequiredAllowance) : bool :=
  match token allowance with
  | None => true
  | Some tok =>
      negb (truthy (tok_address tok))
      || negb (truthy (allowanceTarget allowance))
      || negb (truthy (neededAllowance allowance))
  end.

(** Every request of the tree satisfies [P]. *)
Inductive calls_only (P : Request -> bool) {A : Type} : Prog A -> Prop :=
| calls_only_Ret : forall a, calls_only P (Ret a)
| calls_only_Throw : forall e, calls_only P (Throw e)
| calls_only_Await : forall r k,
    P r = true -> (forall x, calls_only P (k x)) -> calls_only P (Await r k).

(** [approved n p]: the task [p] has had [n] approvals answered so far, and
    it returns [true] exactly when it ends with one, [false] with none. *)
Inductive approved : nat -> Prog bool -> Prop :=
| approved_false : approved 0 (Ret false)
| approved_true : approved 1 (Ret true)
| approved_Throw : forall n e, approved n (Throw e)
| approved_Await : forall n r k,
    is_approve r = false -> (forall x, approved n (k x)) ->
    approved n (Await r k)
| approved_Approve : forall r k,
    is_approve r = true -> (forall x, approved 1 (k x)) ->
    approved 0 (Await r k).

(** [quiet p]: on this gateway, whatever it has answered before, the task
    [p] requests no approval and returns [false]. *)
Section Quiet.

Context {World : Type} `{Gateway World}.

Inductive quiet : Prog bool -> Prop :=
| quiet_Ret : quiet (Ret false)
| quiet_Await : forall r k,
    is_approve r = false ->
    (forall w : World, quiet (k (fst (respond r w)))) ->
    quiet (Await r k).

End Quiet.

(** ** A sample gateway

    A node whose answers are fixed by a few numbers: the allowance it
    reports, the gas price, the outcome of the gas estimate, and the errors
    with which the next calls of [sendTransaction] fail. *)

Module Sample.

Record World : Type := mkWorld {
  allowance_now : BigNumber;
  network_gasPrice : BigNumber;
  estimate : Result BigNumber;
  send_errors : list JsError
}.

Definition receipt_of (tx : TransactionResponse) : Receipt :=
  mkReceipt 19000000 21000 (hash tx).

Definition answer (r : Request) : World -> Result (resp_type r) * World :=
  match r as r0 return World -> Result (resp_type r0) * World with
  | Allowance _ _ _ => fun w => (Ok (allowance_now w), w)
  | Approve _ _ amount _ _ => fun w =>
      (Ok (mkTxResponse "0xa1"),
       mkWorld amount (network_gasPrice w) (estimate w) (send_errors w))
  | Wait tx _ => fun w => (Ok (receipt_of tx), w)
  | GetGasPrice => fun w => (Ok (network_gasPrice w), w)
  | EstimateGas _ _ _ _ => fun w => (estimate w, w)
  | GetTransactionCount _ _ => fun w => (Ok 7, w)
  | GetNetwork => fun w => (Ok (mkNetwork 1), w)
  | SignTransaction t => fun w => (Ok "0xf86b", w)
  | SendTransaction _ => fun w =>
      match send_errors w with
      | [] => (Ok (mkTxResponse "0xb2"), w)
      | e :: es =>
          (Err e,
           mkWorld (allowance_now w) (network_gasPrice w) (estimate w) es)
      end
  end.

#[global] Instance gateway : Gateway World := {| respond := answer |}.

(** A conversion that accepts integers and nothing else. *)
Definition from_number (v : JsValue) : Result BigNumber :=
  match v with
  | JNumber n => Ok n
  | _ => Err (Error "invalid BigNumber value")
  end.

#[global] Instance ethers : Ethers := {| BigNumber_from := from_number |}.

Definition wallet : Wallet :=
  mkWallet "0x00000000000000000000000000000000000000AA".

Definition router : JsValue :=
  JString "0x00000000000000000000000000000000000000BB".

Definition grt : TokenInfo :=
  mkToken (JString "0xc944E90C64B2c07662A292be6244BDf05Cda44a7") (JString "GRT").

Definition world0 : World := mkWorld 0 5 (Ok 100000) [].

End Sample.

(** Responses and transactions used with the sample gateway. *)
Module Scenario.

Import Sample.

Definition grt_needed (needed : JsValue) : RequiredAllowance :=
  mkRequiredAllowance (Some grt) router needed.

(** A well-formed rebalancing response with one required allowance and a
    gas price of its own. *)
Definition plan : RebalancingData :=
  mkRebalancingData router (JString "0x12aa3caf") JUndefined
    (Some [grt_needed (JNumber 10)]) (JNumber 7).


Definition quote : QuoteData :=
  mkQuoteData
    (Some (mkQuoteTransaction router (JString "0x12aa3caf") JUndefined
             (JNumber 9))).

Definition pending : Transaction :=
  mkTransaction router (JString "0x12aa3caf") 0 3000000 5 7 1.

End Scenario.

(** ** Further observations on programs and logs *)

Definition is_read (r : Request) : bool :=
  match r with Allowance _ _ _ => true | _ => false end.

Definition is_wait (r : Request) : bool :=
  match r with Wait _ _ => true | _ => false end.

Definition count_reads (l : list Request) : nat :=
  List.length (filter is_read l).

Definition count_waits (l : list Request) : nat :=
  List.length (filter is_wait l).

Definition count_signs (l : list Request) : nat :=
  List.length (filter is_sign l).

Definition count_sends (l : list Request) : nat :=
  List.length (filter is_send l).

(** [sat P Q p]: every request of the tree satisfies [P] and every value
    it can return satisfies [Q]. *)
Inductive sat {A : Type} (P : Request -> Prop) (Q : A -> Prop)
  : Prog A -> Prop :=
| sat_Ret : forall a, Q a -> sat P Q (Ret a)
| sat_Throw : forall e, sat P Q (Throw e)
| sat_Await : forall r k,
    P r -> (forall x, sat P Q (k x)) -> sat P Q (Await r k).

(** A weight on requests, summed over a log. *)
Fixpoint tally (c : Request -> Z) (l : list Request) : Z :=
  match l with
  | [] => 0
  | r :: l' => c r + tally c l'
  end.

(** [account c final n p]: with [n] already counted, whenever [p] returns
    a value [a], [n] plus the weights of the requests answered on the way
    is [final a]. *)
Inductive account {A : Type} (c : Request -> Z) (final : A -> Z)
  : Z -> Prog A -> Prop :=
| account_Ret : forall a, account c final (final a) (Ret a)
| account_Throw : forall n e, account c final n (Throw e)
| account_Await : forall n r k,
    (forall x, account c final (n + c r) (k x)) ->
    account c final n (Await r k).

(** One for each allowance read. *)
Definition read_weight (r : Request) : Z := if is_read r then 1 else 0.

(** One for each approval sent, one back for each confirmation awaited. *)
Definition unconfirmed_weight (r : Request) : Z :=
  if is_approve r then 1 else if is_wait r then -1 else 0.

(** The requests that the allowance check of one entry may make. *)
Definition entry_request (wallet : Wallet) (allowance : RequiredAllowance)
    (r : Request) : Prop :=
  exists tok,
    token allowance = Some tok /\
    match r with
    | Allowance tokenAddress owner spender =>
        tokenAddress = tok_address tok /\ owner = wallet_address wallet /\
        spender = allowanceTarget allowance
    | Approve tokenAddress spender amount limit _ =>
        tokenAddress = tok_address tok /\
        spender = allowanceTarget allowance /\
        amount = MaxUint256 /\ limit = 100000
    | GetGasPrice | Wait _ _ => True
    | _ => False
    end.

(** The transaction the rebalancing builds carries the response's handler,
    data and value. *)
Definition carries_plan `{Ethers} (rebalancingData : RebalancingData)
    (t : Transaction) : Prop :=
  to t = txHandler rebalancingData /\
  data t = txData rebalancingData /\
  if truthy (txValue rebalancingData)
  then BigNumber_from (txValue rebalancingData) = Ok (value t)
  else value t = 0.

(** What the single swap may request for the quote's transaction [qt]: the
    allowance of the quote's destination over USDT, its approval, and the
    signature of a transaction to that destination. *)
Definition swap_request (wallet : Wallet) (qt : QuoteTransaction)
    (r : Request) : Prop :=
  match r with
  | Allowance tokenAddress owner spender =>
      tokenAddress = JString fromTokenAddress /\
      owner = wallet_address wallet /\ spender = q_to qt
  | Approve tokenAddress spender amount limit _ =>
      tokenAddress = JString fromTokenAddress /\ spender = q_to qt /\
      amount = MaxUint256 /\ limit = 100000
  | SignTransaction t =>
      to t = q_to qt /\ data t = q_data qt /\
      (gasLimit t = 500000 \/ gasLimit t = 750000)
  | Wait _ confirmations => confirmations = 1
  | GetTransactionCount address blockTag =>
      address = wallet_address wallet /\ blockTag = "latest"
  | EstimateGas _ _ _ _ => False
  | _ => True
  end.

Definition zsum (l : list Z) : Z := fold_right Z.add 0 l.

(** ** The balance report of basket-swap.js *)

(** The three read-only calls on a token contract that [getTokenBalance]
    awaits. *)
Inductive TokenRead : Type :=
| BalanceOf (tokenAddress : string) (account : string)
    (** [tokenContract.balanceOf(account)] *)
| Decimals (tokenAddress : string)
| Symbol (tokenAddress : string).

Definition read_type (r : TokenRead) : Type :=
  match r with
  | BalanceOf _ _ => BigNumber
  | Decimals _ => Z
  | Symbol _ => string
  end.

(** An async function that only reads tokens. *)
Inductive Reading (A : Type) : Type :=
| Got (a : A)
| Failed (e : JsError)
| Ask (r : TokenRead) (k : Result (read_type r) -> Reading A).
Arguments Got {A} a.
Arguments Failed {A} e.
Arguments Ask {A} r k.

Fixpoint and_then {A B} (p : Reading A) (f : A -> Reading B) : Reading B :=
  match p with
  | Got a => f a
  | Failed e => Failed e
  | Ask r k => Ask r (fun x => and_then (k x) f)
  end.

(** [await] of one read. *)
Definition ask (r : TokenRead) : Reading (read_type r) :=
  Ask r (fun x => match x with Ok a => Got a | Err e => Failed e end).

Definition got_or_failed {A} (x : Result A) : Reading A :=
  match x with Ok a => Got a | Err e => Failed e end.

(** The object that [getTokenBalance] returns. *)
Record TokenBalance : Type := mkTokenBalance {
  tb_address : string;
  tb_balance : BigNumber;
  tb_decimals : Z;
  tb_symbol : string;
  formattedBalance : string
}.

(** [ethers.utils.formatUnits], of the library. *)
Class Units : Type := { formatUnits : BigNumber -> Z -> Result string }.

(** [getTokenBalance(provider, tokenAddress, walletAddress)],
    basket-swap.js 70-86. *)
Definition getTokenBalance `{Units} (tokenAddress walletAddress : string)
  : Reading TokenBalance :=
  and_then (ask (BalanceOf tokenAddress walletAddress)) (fun balance =>
  and_then (ask (Decimals tokenAddress)) (fun decimals =>
  and_then (ask (Symbol tokenAddress)) (fun symbol =>
  and_then (got_or_failed (formatUnits balance decimals)) (fun formatted =>
  Got (mkTokenBalance tokenAddress balance decimals symbol formatted))))).

(** The node as far as token reads go. *)
Class TokenNode (World : Type) : Type := {
  answer_read : forall r : TokenRead, World -> Result (read_type r) * World
}.

Section Balances.

Context {World : Type} `{TokenNode World} `{Units}.

Definition ReadRun (A : Type) : Type :=
  World -> Result A * World * list TokenRead.

Fixpoint read {A} (p : Reading A) : ReadRun A :=
  fun w =>
    match p with
    | Got a => (Ok a, w, [])
    | Failed e => (Err e, w, [])
    | Ask r k =>
        let (x, w1) := answer_read r w in
        let '(res, w2, l) := read (k x) w1 in
        (res, w2, r :: l)
    end.

(** [Promise.all] over readings, as [promise_all] is over [Prog]. *)
Fixpoint first_failed {A} (ts : list (Reading A)) : option JsError :=
  match ts with
  | [] => None
  | Failed e :: _ => Some e
  | _ :: ts' => first_failed ts'
  end.

Definition answer_one {A} (p : Reading A) (w : World)
  : Reading A * World * list TokenRead :=
  match p with
  | Ask r k => let (x, w1) := answer_read r w in (k x, w1, [r])
  | _ => (p, w, [])
  end.

Fixpoint answer_nth {A} (i : nat) (ts : list (Reading A)) (w : World)
  {struct ts} : list (Reading A) * World * list TokenRead :=
  match ts with
  | [] => ([], w, [])
  | p :: ts' =>
      match i with
      | O => let '(p', w1, l) := answer_one p w in (p' :: ts', w1, l)
      | S i' => let '(ts'', w1, l) := answer_nth i' ts' w in (p :: ts'', w1, l)
      end
  end.

Fixpoint read_each {A} (ts : list (Reading A)) : ReadRun (list A) :=
  fun w =>
    match ts with
    | [] => (Ok [], w, [])
    | p :: ts' =>
        let '(r, w1, l1) := read p w in
        match r with
        | Err e => (Err e, w1, l1)
        | Ok a =>
            let '(rs, w2, l2) := read_each ts' w1 in
            (match rs with Ok vs => Ok (a :: vs) | Err e => Err e end,
             w2, l1 ++ l2)
        end
    end.

Fixpoint read_all {A} (sched : list nat) (ts : list (Reading A))
  : ReadRun (list A) :=
  fun w =>
    match first_failed ts with
    | Some e => (Err e, w, [])
    | None =>
        match sched with
        | [] => read_each ts w
        | i :: sched' =>
            let '(ts', w1, l1) := answer_nth i ts w in
            let '(r, w2, l2) := read_all sched' ts' w1 in
            (r, w2, l1 ++ l2)
        end
    end.

(** [checkBalances(provider, walletAddress, tokens)],
    basket-swap.js 401-415. *)
Definition checkBalances (sched : list nat) (walletAddress : string)
    (tokens : list string) : ReadRun (list TokenBalance) :=
  let balancePromises :=
    map (fun token => getTokenBalance token walletAddress) tokens in
  read_all sched balancePromises.

(** [settles P Q p]: every read of the tree satisfies [P] and every value
    it can return satisfies [Q]. *)
Inductive settles {A : Type} (P : TokenRead -> Prop) (Q : A -> Prop)
  : Reading A -> Prop :=
| settles_Got : forall a, Q a -> settles P Q (Got a)
| settles_Failed : forall e, settles P Q (Failed e)
| settles_Ask : forall r k,
    P r -> (forall x, settles P Q (k x)) -> settles P Q (Ask r k).

(** [fails p]: on this node, whatever it has answered before, [p] cannot
    return a value. *)
Inductive fails {A : Type} : Reading A -> Prop :=
| fails_Failed : forall e, fails (Failed e)
| fails_Ask : forall r k,
    (forall w : World, fails (k (fst (answer_read r w)))) -> fails (Ask r k).

End Balances.

Definition is_balanceOf (r : TokenRead) : bool :=
  match r with BalanceOf _ _ => true | _ => false end.

Definition is_decimals (r : TokenRead) : bool :=
  match r with Decimals _ => true | _ => false end.

Definition is_symbol (r : TokenRead) : bool :=
  match r with Symbol _ => true | _ => false end.

(** One for each read of the kind [f]. *)
Definition kind_weight (f : TokenRead -> bool) (r : TokenRead) : Z :=
  if f r then 1 else 0.

Fixpoint read_tally (c : TokenRead -> Z) (l : list TokenRead) : Z :=
  match l with
  | [] => 0
  | r :: l' => c r + read_tally c l'
  end.

(** As [account], for readings. *)
Inductive read_account {A : Type} (c : TokenRead -> Z) (final : A -> Z)
  : Z -> Reading A -> Prop :=
| read_account_Got : forall a, read_account c final (final a) (Got a)
| read_account_Failed : forall n e, read_account c final n (Failed e)
| read_account_Ask : forall n r k,
    (forall x, read_account c final (n + c r) (k x)) ->
    read_account c final n (Ask r k).

(** A node that knows every token but one, and a formatter that looks at
    the sign only. *)
Module SampleTokens.

Definition unknown : string := "0x000000000000000000000000000000000000dEaD".

Definition answer (r : TokenRead) : nat -> Result (read_type r) * nat :=
  match r as r0 return nat -> Result (read_type r0) * nat with
  | BalanceOf _ _ => fun n => (Ok (1500000 + Z.of_nat n), S n)
  | Decimals t => fun n =>
      if (t =? unknown)%string
      then (Err (Error "call revert exception"), S n)
      else (Ok 6, S n)
  | Symbol _ => fun n => (Ok "USDT", S n)
  end.

#[global] Instance node : TokenNode nat := {| answer_read := answer |}.

#[global] Instance units : Units :=
  {| formatUnits := fun balance decimals =>
       if decimals <? 0 then Err (Error "invalid decimals")
       else Ok (if balance =? 0 then "0.0" else "1.5") |}.

Definition usdt : string := "0xdAC17F958D2ee523a2206206994597C13D831ec7".
Definition weth : string := "0xC02aaA39b223FE8D0A0e5C4F27eAD9083C756Cc2".

End SampleTokens.

(** A gateway on which every approval is refused and the first send fails
    for want of gas. *)
Module Refusing.

Inductive World : Type := refusing (sends : nat).

Definition answer (r : Request) : World -> Result (resp_type r) * World :=
  match r as r0 return World -> Result (resp_type r0) * World with
  | Allowance _ _ _ => fun w => (Ok 0, w)
  | Approve _ _ _ _ _ => fun w =>
      (Err (Error "insufficient funds for intrinsic transaction cost"), w)
  | Wait tx _ => fun w => (Ok (mkReceipt 19000001 21000 (hash tx)), w)
  | GetGasPrice => fun w => (Ok 5, w)
  | EstimateGas _ _ _ _ => fun w => (Ok 100000, w)
  | GetTransactionCount _ _ => fun w => (Ok 7, w)
  | GetNetwork => fun w => (Ok (mkNetwork 1), w)
  | SignTransaction t => fun w => (Ok "0xf86b", w)
  | SendTransaction _ => fun w =>
      match w with
      | refusing O =>
          (Err (Error "UNPREDICTABLE_GAS_LIMIT"), refusing 1)
      | refusing (S n) => (Ok (mkTxResponse "0xb3"), refusing (S (S n)))
      end
  end.

#[global] Instance gateway : Gateway World := {| respond := answer |}.

End Refusing.

(** * Properties *)

(** ** Strings *)

Lemma includes_prefix (s sub : string) :
  String.prefix sub s = true -> includes s sub = true.
Proof.
  intros H. destruct s; simpl in *; rewrite H; reflexivity.
Qed.

Lemma includes_tail (c : ascii) (s sub : string) :
  includes s sub = true -> includes (String c s) sub = true.
Proof.
  intros H. simpl. rewrite H. apply orb_true_r.
Qed.

(** [includes] finds the needle wherever it sits. *)
Lemma includes_infix (a sub b : string) :
  includes (a ++ sub ++ b)%string sub = true.
Proof.
  induction a as [|c a IH].
  - apply includes_prefix. simpl.
    induction sub as [|d sub IHs]; simpl.
    + destruct b; reflexivity.
    + destruct (ascii_dec d d) as [_|n]; [exact IHs | now elim n].
  - simpl String.append. apply includes_tail, IH.
Qed.

Lemma prefix_append (sub s : string) :
  String.prefix sub s = true -> exists b, s = (sub ++ b)%string.
Proof.
  revert s. induction sub as [|c sub IH]; intros s Hp.
  - exists s. reflexivity.
  - destruct s as [|d s]; simpl in Hp; [discriminate|].
    destruct (ascii_dec c d) as [Hcd|_]; [subst d | discriminate].
    destruct (IH s Hp) as [b ->]. exists b. reflexivity.
Qed.

(** ... and only there. *)
Lemma includes_inv (s sub : string) :
  includes s sub = true -> exists a b, s = (a ++ sub ++ b)%string.
Proof.
  induction s as [|c s IH]; intros Hinc.
  - destruct sub; [|discriminate]. exists EmptyString, EmptyString.
    reflexivity.
  - change (String.prefix sub (String c s) || includes s sub = true) in Hinc.
    apply orb_prop in Hinc as [Hp|Hrest].
    + destruct (prefix_append _ _ Hp) as [b Hb]. exists EmptyString, b.
      exact Hb.
    + destruct (IH Hrest) as [a [b ->]]. exists (String c a), b. reflexivity.
Qed.

Section Facts.

Context {World : Type} `{Gateway World} `{Ethers}.

(** ** The run of a sequence and of a try/catch *)

Lemma run_bind {A B} (p : Prog A) (f : A -> Prog B) (w : World) :
  run (bind p f) w = bind_run (run p) (fun a => run (f a)) w.
Proof.
  revert w. induction p as [a|e|r k IH]; intros w; unfold bind_run; simpl.
  - destruct (run (f a) w) as [[r2 w2] l2]. reflexivity.
  - reflexivity.
  - destruct (respond r w) as [x w1]. rewrite IH. unfold bind_run.
    destruct (run (k x) w1) as [[[a|e] w2] l1].
    + destruct (run (f a) w2) as [[r2 w3] l2]. reflexivity.
    + reflexivity.
Qed.

Lemma run_try_catch {A} (p : Prog A) (h : JsError -> Prog A) (w : World) :
  run (try_catch p h) w =
  let '(r, w1, l1) := run p w in
  match r with
  | Ok a => (Ok a, w1, l1)
  | Err e => let '(r2, w2, l2) := run (h e) w1 in (r2, w2, l1 ++ l2)
  end.
Proof.
  revert w. induction p as [a|e|r k IH]; intros w; simpl.
  - reflexivity.
  - destruct (run (h e) w) as [[r2 w2] l2]. reflexivity.
  - destruct (respond r w) as [x w1]. rewrite IH.
    destruct (run (k x) w1) as [[[a|e] w2] l1].
    + reflexivity.
    + destruct (run (h e) w2) as [[r2 w3] l2]. reflexivity.
Qed.

(** ** checkAndSetAllowance *)

(** The four possible logs of one allowance check. *)
Lemma checkAndSetAllowance_log wallet tokenAddress spenderAddress amount w :
  let log := snd (run (checkAndSetAllowance wallet tokenAddress spenderAddress
                         amount) w) in
  let read := Allowance tokenAddress (wallet_address wallet) spenderAddress in
  log = [read] \/ log = [read; GetGasPrice] \/
  exists price,
    let approval :=
      Approve tokenAddress spenderAddress MaxUint256 100000 price in
    log = [read; GetGasPrice; approval] \/
    exists approveTx, log = [read; GetGasPrice; approval; Wait approveTx 1].
Proof.
  unfold checkAndSetAllowance. simpl.
  destruct (respond _ w) as [[cur|e] w1]; simpl; [|now left].
  destruct (bn_lt cur amount); simpl; [|now left].
  destruct (respond GetGasPrice w1) as [[price|e] w2]; simpl;
    [|now right; left].
  right; right; exists price.
  destruct (respond _ w2) as [[approveTx|e] w3]; simpl; [|now left].
  right; exists approveTx.
  destruct (respond _ w3) as [[receipt|e] w4]; reflexivity.
Qed.


(** C5.  When the allowance read answers an amount below the needed one
    (and the node gives a gas price), exactly one approval is requested: of
    [MaxUint256] = 2^256 - 1, whatever the needed amount, with gas limit
    100000 and the node's gas price. *)
Theorem insufficient_allowance_approves_max_once :
  forall wallet tokenAddress spenderAddress amount w currentAllowance w1
         price w2,
    respond (Allowance tokenAddress (wallet_address wallet) spenderAddress) w
      = (Ok currentAllowance, w1) ->
    currentAllowance < amount ->
    respond GetGasPrice w1 = (Ok price, w2) ->
    filter is_approve
      (snd (run (checkAndSetAllowance wallet tokenAddress spenderAddress
                   amount) w))
    = [Approve tokenAddress spenderAddress MaxUint256 100000 price]
    /\ MaxUint256 = 2 ^ 256 - 1.
Proof.
  intros wallet tokenAddress spenderAddress amount w cur w1 price w2
         Hread Hlt Hprice.
  split; [|reflexivity].
  unfold checkAndSetAllowance. simpl. rewrite Hread. simpl.
  unfold bn_lt. destruct (Z.ltb_spec cur amount) as [_|Hge]; [|lia].
  simpl. rewrite Hprice. simpl.
  destruct (respond _ w2) as [[approveTx|e] w3]; simpl; [|reflexivity].
  destruct (respond _ w3) as [[receipt|e] w4]; reflexivity.
Qed.

(** ** The gas estimate *)

(** C2.  When [estimateGas] answers G the limit is G * 120 quotient 100 -
    the floor of G * 1.2 for the non-negative G a node reports; when it
    fails, whatever the error, the limit is 3000000 and the block returns
    normally: the error goes no further. *)
Theorem gas_estimate_buffer_or_default :
  forall wallet tx_to tx_data tx_value (w : World),
    let request :=
      EstimateGas (wallet_address wallet) tx_to tx_data tx_value in
    let estimation := rebalancing_gasLimit wallet tx_to tx_data tx_value in
    (forall G w1, respond request w = (Ok G, w1) ->
       run estimation w = (Ok (bn_div (bn_mul G 120) 100), w1, [request])) /\
    (forall G w1, respond request w = (Ok G, w1) -> 0 <= G ->
       run estimation w = (Ok (G * 120 / 100), w1, [request])) /\
    (forall e w1, respond request w = (Err e, w1) ->
       run estimation w = (Ok 3000000, w1, [request])).
Proof.
  intros wallet tx_to tx_data tx_value w request estimation.
  assert (Hok : forall G w1, respond request w = (Ok G, w1) ->
    run estimation w = (Ok (bn_div (bn_mul G 120) 100), w1, [request])).
  { intros G w1 Hr. unfold estimation, rebalancing_gasLimit. simpl.
    fold request. rewrite Hr. reflexivity. }
  split; [exact Hok|]. split.
  - intros G w1 Hr HG. rewrite (Hok G w1 Hr). unfold bn_div, bn_mul.
    rewrite Z.quot_div_nonneg by lia. reflexivity.
  - intros e w1 Hr. unfold estimation, rebalancing_gasLimit. simpl.
    fold request. rewrite Hr. reflexivity.
Qed.

(** A failed estimate does not stop the rebalancing: the transaction is
    built with 3000000 and the nonce and network are read next. *)
Lemma estimate_failure_is_not_fatal wallet rebalancingData (w : World)
    tx_value price w1 e w2 nonce w3 network w4 :
  (if truthy (txValue rebalancingData)
   then BigNumber_from (txValue rebalancingData) else Ok 0) = Ok tx_value ->
  respond GetGasPrice w = (Ok price, w1) ->
  respond (EstimateGas (wallet_address wallet) (txHandler rebalancingData)
             (txData rebalancingData) tx_value) w1 = (Err e, w2) ->
  respond (GetTransactionCount (wallet_address wallet) "latest") w2
    = (Ok nonce, w3) ->
  respond GetNetwork w3 = (Ok network, w4) ->
  run (rebalancing_transaction wallet rebalancingData) w
  = (Ok (mkTransaction (txHandler rebalancingData) (txData rebalancingData)
           tx_value 3000000 price nonce (net_chainId network)),
     w4,
     [GetGasPrice;
      EstimateGas (wallet_address wallet) (txHandler rebalancingData)
        (txData rebalancingData) tx_value;
      GetTransactionCount (wallet_address wallet) "latest";
      GetNetwork]).
Proof.
  intros Hvalue Hprice Hestimate Hnonce Hnetwork.
  unfold rebalancing_transaction. rewrite Hvalue. simpl.
  rewrite Hprice. simpl. rewrite Hestimate. simpl.
  rewrite Hnonce. simpl. rewrite Hnetwork. reflexivity.
Qed.

(** ** Submission and retry *)

(** One attempt signs once, the transaction it was given, and sends at most
    once. *)
Lemma signSendWait_log (t : Transaction) (w : World) :
  let log := snd (run (signSendWait t) w) in
  filter is_sign log = [SignTransaction t] /\
  (List.length (filter is_send log) <= 1)%nat.
Proof.
  unfold signSendWait. simpl.
  destruct (respond _ w) as [[signedTx|e] w1]; simpl; [|split; auto].
  destruct (respond _ w1) as [[txResponse|e] w2]; simpl; [|split; auto].
  destruct (respond _ w2) as [[receipt|e] w3]; simpl; split; auto.
Qed.

(** What a try/catch around one attempt does, for any way [raise] of
    choosing the gas limit of the second attempt. *)
Lemma run_retry (raise : Transaction -> BigNumber) (t : Transaction)
    (w : World) :
  run (try_catch (signSendWait t)
         (fun error =>
            if gas_limit_error error
            then signSendWait (set_gasLimit t (raise t))
            else Throw error)) w =
  let '(r1, w1, l1) := run (signSendWait t) w in
  match r1 with
  | Ok receipt => (Ok receipt, w1, l1)
  | Err error =>
      if gas_limit_error error then
        let '(r2, w2, l2) :=
          run (signSendWait (set_gasLimit t (raise t))) w1 in
        (r2, w2, l1 ++ l2)
      else (Err error, w1, l1)
  end.
Proof.
  rewrite run_try_catch.
  destruct (run (signSendWait t) w) as [[[receipt|error] w1] l1];
    [reflexivity|].
  destruct (gas_limit_error error); [reflexivity|].
  simpl. rewrite app_nil_r. reflexivity.
Qed.

(** C1.  Both submission blocks, for every transaction and every gateway.
    If the first attempt (sign, send, wait) fails with an error whose
    message contains "gas limit" or "UNPREDICTABLE_GAS_LIMIT", one more
    attempt is made and its outcome, success or failure, is the outcome of
    the block; it signs the same transaction except for the gas limit, which
    is the old one times 150 quotient 100 in the rebalancing and 750000 in
    the single swap.  If the message matches neither, nothing more is
    requested and the same error is thrown.  A first attempt that succeeds
    is not repeated. *)
Theorem retry_once_on_gas_limit_error :
  forall (t : Transaction) (w : World),
    let higher := set_gasLimit t (bn_div (bn_mul (gasLimit t) 150) 100) in
    let fixed := set_gasLimit t 750000 in
    let '(r1, w1, l1) := run (signSendWait t) w in
    filter is_sign l1 = [SignTransaction t] /\
    match r1 with
    | Ok receipt =>
        run (rebalancing_submit t) w = (Ok receipt, w1, l1) /\
        run (swap_submit t) w = (Ok receipt, w1, l1)
    | Err error =>
        if includes (message error) "gas limit"
           || includes (message error) "UNPREDICTABLE_GAS_LIMIT"
        then
          (let '(r2, w2, l2) := run (signSendWait higher) w1 in
           run (rebalancing_submit t) w = (r2, w2, l1 ++ l2) /\
           filter is_sign (l1 ++ l2)
             = [SignTransaction t; SignTransaction higher]) /\
          (let '(r2, w2, l2) := run (signSendWait fixed) w1 in
           run (swap_submit t) w = (r2, w2, l1 ++ l2) /\
           filter is_sign (l1 ++ l2)
             = [SignTransaction t; SignTransaction fixed]) /\
          (nonce higher, to higher, data higher, value higher,
           gasPrice higher, chainId higher)
            = (nonce t, to t, data t, value t, gasPrice t, chainId t) /\
          (nonce fixed, to fixed, data fixed, value fixed,
           gasPrice fixed, chainId fixed)
            = (nonce t, to t, data t, value t, gasPrice t, chainId t) /\
          gasLimit higher = Z.quot (gasLimit t * 150) 100 /\
          gasLimit fixed = 750000
        else
          run (rebalancing_submit t) w = (Err error, w1, l1) /\
          run (swap_submit t) w = (Err error, w1, l1)
    end.
Proof.
  intros t w higher fixed.
  unfold rebalancing_submit, swap_submit.
  rewrite (run_retry (fun t => bn_div (bn_mul (gasLimit t) 150) 100) t w).
  rewrite (run_retry (fun _ => 750000) t w).
  fold higher. fold fixed.
  pose proof (signSendWait_log t w) as [Hsign _].
  destruct (run (signSendWait t) w) as [[[receipt|error] w1] l1];
    simpl in Hsign; (split; [exact Hsign|]); [now split|].
  fold (gas_limit_error error).
  destruct (gas_limit_error error); [|now split].
  pose proof (signSendWait_log higher w1) as [Hhigher _].
  pose proof (signSendWait_log fixed w1) as [Hfixed _].
  destruct (run (signSendWait higher) w1) as [[r2 w2] l2].
  destruct (run (signSendWait fixed) w1) as [[r3 w3] l3].
  simpl in Hhigher, Hfixed.
  repeat split.
  - rewrite filter_app, Hsign, Hhigher. reflexivity.
  - rewrite filter_app, Hsign, Hfixed. reflexivity.
Qed.

(** The new limit of the rebalancing retry is larger than the old one as
    soon as the old one is at least 2. *)
Lemma rebalancing_retry_raises (t : Transaction) :
  2 <= gasLimit t ->
  gasLimit t < bn_div (bn_mul (gasLimit t) 150) 100.
Proof.
  intros Hg. unfold bn_div, bn_mul.
  rewrite Z.quot_div_nonneg by lia.
  assert (gasLimit t + 1 <= gasLimit t * 150 / 100)
    by (apply Z.div_le_lower_bound; lia).
  lia.
Qed.

(** ** Promise.all *)

Lemma first_rejection_In {A} (ts : list (Prog A)) (e : JsError) :
  In (Throw e) ts -> exists e', first_rejection ts = Some e'.
Proof.
  induction ts as [|p ts IH]; simpl; [contradiction|].
  intros [Hp|Hin].
  - subst p. eauto.
  - destruct p; eauto.
Qed.

(** A task that has already thrown settles [Promise.all] at once. *)
Lemma promise_all_rejected {A} (sched : list nat) (ts : list (Prog A))
    (e : JsError) (w : World) :
  first_rejection ts = Some e -> promise_all sched ts w = (Err e, w, []).
Proof.
  intros Hrej. destruct sched; simpl; rewrite Hrej; reflexivity.
Qed.

(** *** Requests of a given kind *)

Lemma run_calls_only (P : Request -> bool) {A} (p : Prog A) (w : World) :
  calls_only P p -> forallb P (snd (run p w)) = true.
Proof.
  intros Hp. revert w. induction Hp as [a|e|r k Hr _ IH]; intros w; simpl;
    try reflexivity.
  destruct (respond r w) as [x w1]. specialize (IH x w1).
  destruct (run (k x) w1) as [[res w2] l]. simpl in *.
  rewrite Hr, IH. reflexivity.
Qed.

Lemma deliver_nth_calls_only (P : Request -> bool) {A} (i : nat)
    (ts : list (Prog A)) (w : World) :
  Forall (calls_only P) ts ->
  Forall (calls_only P) (fst (fst (deliver_nth i ts w))) /\
  forallb P (snd (deliver_nth i ts w)) = true.
Proof.
  intros Hts. revert i. induction Hts as [|p ts Hp Hts IH]; intros i; simpl.
  - split; [constructor | reflexivity].
  - destruct i as [|i].
    + destruct Hp as [a|e|r k Hr Hk]; simpl;
        try (split; [repeat constructor; assumption | reflexivity]).
      destruct (respond r w) as [x w1]. simpl. rewrite Hr.
      split; [constructor; [apply Hk | assumption] | reflexivity].
    + specialize (IH i). destruct (deliver_nth i ts w) as [[ts' w1] l].
      simpl in *. destruct IH as [IH1 IH2].
      split; [constructor; assumption | assumption].
Qed.

Lemma run_each_calls_only (P : Request -> bool) {A} (ts : list (Prog A))
    (w : World) :
  Forall (calls_only P) ts -> forallb P (snd (run_each ts w)) = true.
Proof.
  intros Hts. revert w. induction Hts as [|p ts Hp Hts IH]; intros w; simpl;
    [reflexivity|].
  pose proof (run_calls_only w Hp) as Hrun.
  destruct (run p w) as [[[a|e] w1] l1]; simpl in *; [|exact Hrun].
  specialize (IH w1). destruct (run_each ts w1) as [[rs w2] l2]. simpl in *.
  rewrite forallb_app, Hrun, IH. reflexivity.
Qed.

Lemma promise_all_calls_only (P : Request -> bool) {A} (sched : list nat)
    (ts : list (Prog A)) (w : World) :
  Forall (calls_only P) ts -> forallb P (snd (promise_all sched ts w)) = true.
Proof.
  revert ts w. induction sched as [|i sched IH]; intros ts w Hts; simpl;
    destruct (first_rejection ts); try reflexivity.
  - apply run_each_calls_only, Hts.
  - destruct (deliver_nth_calls_only i w Hts) as [Hts' Hl].
    destruct (deliver_nth i ts w) as [[ts' w1] l1]. simpl in *.
    specialize (IH ts' w1 Hts').
    destruct (promise_all sched ts' w1) as [[r w2] l2]. simpl in *.
    rewrite forallb_app, Hl, IH. reflexivity.
Qed.

Lemma checkAndSetAllowance_calls wallet tokenAddress spenderAddress amount :
  calls_only is_allowance_call
    (checkAndSetAllowance wallet tokenAddress spenderAddress amount).
Proof.
  unfold checkAndSetAllowance. simpl.
  constructor; [reflexivity|]. intros [cur|e]; simpl; [|constructor].
  destruct (bn_lt cur amount); simpl; [|constructor].
  constructor; [reflexivity|]. intros [price|e]; simpl; [|constructor].
  constructor; [reflexivity|]. intros [approveTx|e]; simpl; [|constructor].
  constructor; [reflexivity|]. intros [receipt|e]; simpl; constructor.
Qed.

Lemma approvalPromise_calls wallet allowance :
  calls_only is_allowance_call (approvalPromise wallet allowance).
Proof.
  unfold approvalPromise.
  destruct (token allowance) as [tok|]; [|constructor].
  destruct (_ || _); [constructor|].
  destruct (BigNumber_from (neededAllowance allowance)) as [amount|e]; simpl;
    [apply checkAndSetAllowance_calls | constructor].
Qed.

(** Whatever the schedule, [handleRequiredAllowances] only reads
    allowances and gas prices, approves, and waits. *)
Lemma handleRequiredAllowances_calls sched wallet required (w : World) :
  forallb is_allowance_call
    (snd (handleRequiredAllowances sched wallet required w)) = true.
Proof.
  unfold handleRequiredAllowances.
  destruct required as [entries|]; [|reflexivity].
  destruct (List.length entries =? 0)%nat; [reflexivity|].
  unfold bind_run.
  pose proof (promise_all_calls_only (P := is_allowance_call) sched
    (ts := map (approvalPromise wallet) entries) w) as Hall.
  destruct (promise_all sched _ w) as [[[bs|e] w1] l1]; simpl in *.
  - rewrite app_nil_r. apply Hall.
    apply Forall_forall. intros p Hp. apply in_map_iff in Hp as [a [<- _]].
    apply approvalPromise_calls.
  - apply Hall.
    apply Forall_forall. intros p Hp. apply in_map_iff in Hp as [a [<- _]].
    apply approvalPromise_calls.
Qed.

(** ** Validation of the required allowances *)

Lemma approvalPromise_incomplete wallet allowance :
  incomplete allowance = true ->
  exists e, approvalPromise wallet allowance = Throw e.
Proof.
  unfold incomplete, approvalPromise.
  destruct (token allowance) as [tok|]; [|eauto].
  intros ->. eauto.
Qed.

(** One incomplete entry anywhere in the array rejects the whole call,
    whatever the schedule. *)
Lemma handleRequiredAllowances_incomplete sched wallet entries allowance
    (w : World) :
  In allowance entries -> incomplete allowance = true ->
  exists e,
    handleRequiredAllowances sched wallet (Some entries) w = (Err e, w, []).
Proof.
  intros Hin Hinc. unfold handleRequiredAllowances.
  destruct entries as [|a0 entries0] eqn:Hentries; [contradiction|].
  rewrite <- Hentries in *. replace (List.length entries =? 0)%nat with false
    by (subst entries; reflexivity).
  destruct (approvalPromise_incomplete wallet allowance Hinc) as [e He].
  destruct (first_rejection_In (map (approvalPromise wallet) entries) e)
    as [e' He'].
  { rewrite <- He. apply in_map, Hin. }
  exists e'. unfold bind_run.
  rewrite (promise_all_rejected sched _ w He'). reflexivity.
Qed.

(** C6.  If an entry of the array lacks its token object or token address,
    its [allowanceTarget] or its [neededAllowance], the call throws, for
    every schedule and every gateway: it never returns normally. *)
Theorem missing_field_fails_reconciliation :
  forall sched wallet entries allowance (w : World),
    In allowance entries ->
    token allowance = None \/
    (exists tok, token allowance = Some tok /\ tok_address tok = JUndefined) \/
    allowanceTarget allowance = JUndefined \/
    neededAllowance allowance = JUndefined ->
    exists e,
      fst (fst (handleRequiredAllowances sched wallet (Some entries) w))
        = Err e.
Proof.
  intros sched wallet entries allowance w Hin Hmissing.
  destruct (handleRequiredAllowances_incomplete sched wallet entries
              allowance w Hin) as [e He].
  - unfold incomplete.
    destruct Hmissing as [-> | [[tok [-> Haddr]] | [Hspender | Hneeded]]].
    + reflexivity.
    + rewrite Haddr. reflexivity.
    + destruct (token allowance); [|reflexivity].
      rewrite Hspender. simpl. rewrite orb_true_r. reflexivity.
    + destruct (token allowance); [|reflexivity].
      rewrite Hneeded. simpl. rewrite !orb_true_r. reflexivity.
  - exists e. rewrite He. reflexivity.
Qed.

(** C10.  An entry whose [neededAllowance] is the number 0 makes the call
    throw, for every schedule and gateway; with a token object present, what
    its callback throws is [Error("Incomplete allowance data")].  Yet an
    allowance check for the amount 0 is satisfied by any allowance the
    token reports: it approves nothing and returns [false]. *)
Theorem zero_needed_allowance_is_rejected :
  forall sched wallet entries allowance (w : World),
    In allowance entries ->
    neededAllowance allowance = JNumber 0 ->
    (exists e,
       fst (fst (handleRequiredAllowances sched wallet (Some entries) w))
         = Err e) /\
    (forall tok, token allowance = Some tok ->
       approvalPromise wallet allowance
         = Throw (Error "Incomplete allowance data")) /\
    (forall tokenAddress spenderAddress currentAllowance w1,
       respond (Allowance tokenAddress (wallet_address wallet) spenderAddress)
         w = (Ok currentAllowance, w1) ->
       0 <= currentAllowance ->
       run (checkAndSetAllowance wallet tokenAddress spenderAddress 0) w
         = (Ok false, w1,
            [Allowance tokenAddress (wallet_address wallet) spenderAddress])).
Proof.
  intros sched wallet entries allowance w Hin Hzero.
  assert (Hinc : incomplete allowance = true).
  { unfold incomplete. destruct (token allowance); [|reflexivity].
    rewrite Hzero. simpl. rewrite !orb_true_r. reflexivity. }
  split; [|split].
  - destruct (handleRequiredAllowances_incomplete sched wallet entries
                allowance w Hin Hinc) as [e He].
    exists e. rewrite He. reflexivity.
  - intros tok Htok. unfold approvalPromise. rewrite Htok, Hzero. simpl.
    rewrite !orb_true_r. reflexivity.
  - intros tokenAddress spenderAddress cur w1 Hread Hcur.
    unfold checkAndSetAllowance. simpl. rewrite Hread. simpl.
    unfold bn_lt. destruct (Z.ltb_spec cur 0) as [Hlt|_]; [lia|].
    reflexivity.
Qed.

(** ** What the approval tasks return *)

Lemma count_approvals_app (l1 l2 : list Request) :
  count_approvals (l1 ++ l2) = (count_approvals l1 + count_approvals l2)%nat.
Proof.
  unfold count_approvals. rewrite filter_app, length_app. reflexivity.
Qed.

Lemma checkAndSetAllowance_approved wallet tokenAddress spenderAddress amount :
  approved 0 (checkAndSetAllowance wallet tokenAddress spenderAddress amount).
Proof.
  unfold checkAndSetAllowance. simpl.
  apply approved_Await; [reflexivity|]. intros [cur|e]; simpl;
    [|constructor].
  destruct (bn_lt cur amount); simpl; [|constructor].
  apply approved_Await; [reflexivity|]. intros [price|e]; simpl;
    [|constructor].
  apply approved_Approve; [reflexivity|]. intros [approveTx|e]; simpl;
    [|constructor].
  apply approved_Await; [reflexivity|]. intros [receipt|e]; simpl;
    constructor.
Qed.

Lemma approvalPromise_approved wallet allowance :
  approved 0 (approvalPromise wallet allowance).
Proof.
  unfold approvalPromise.
  destruct (token allowance) as [tok|]; [|constructor].
  destruct (_ || _); [constructor|].
  destruct (BigNumber_from (neededAllowance allowance)) as [amount|e]; simpl;
    [apply checkAndSetAllowance_approved | constructor].
Qed.

Lemma run_approved (n : nat) (p : Prog bool) :
  approved n p ->
  forall (w : World) b w1 l,
    run p w = (Ok b, w1, l) ->
    (n + count_approvals l)%nat = if b then 1%nat else 0%nat.
Proof.
  induction 1 as [| |n e|n r k Hr _ IH|r k Hr _ IH]; intros w b w1 l Hrun;
    simpl in Hrun.
  - inversion Hrun; subst. reflexivity.
  - inversion Hrun; subst. reflexivity.
  - discriminate.
  - destruct (respond r w) as [x w0].
    destruct (run (k x) w0) as [[res w2] l0] eqn:Hk.
    inversion Hrun; subst. specialize (IH x w0 b w1 l0 Hk).
    unfold count_approvals in *. simpl. rewrite Hr. exact IH.
  - destruct (respond r w) as [x w0].
    destruct (run (k x) w0) as [[res w2] l0] eqn:Hk.
    inversion Hrun; subst. specialize (IH x w0 b w1 l0 Hk).
    unfold count_approvals in *. simpl. rewrite Hr. simpl. lia.
Qed.

Lemma deliver_approved (n : nat) (p : Prog bool) (w : World) :
  approved n p ->
  approved (n + count_approvals (snd (deliver p w)))
    (fst (fst (deliver p w))).
Proof.
  intros Hp. destruct Hp as [| |n e|n r k Hr Hk|r k Hr Hk];
    unfold count_approvals; simpl.
  - constructor.
  - constructor.
  - constructor.
  - destruct (respond r w) as [x w1]. unfold count_approvals. simpl.
    rewrite Hr. simpl. rewrite Nat.add_0_r. apply Hk.
  - destruct (respond r w) as [x w1]. unfold count_approvals. simpl.
    rewrite Hr. simpl. apply Hk.
Qed.

Lemma deliver_nth_approved (i : nat) (ns : list nat) (ts : list (Prog bool))
    (w : World) :
  Forall2 approved ns ts ->
  exists ns',
    Forall2 approved ns' (fst (fst (deliver_nth i ts w))) /\
    list_sum ns'
      = (list_sum ns + count_approvals (snd (deliver_nth i ts w)))%nat.
Proof.
  intros Hts. revert i. induction Hts as [|n p ns ts Hp Hts IH]; intros i;
    simpl.
  - exists []. split; [constructor | reflexivity].
  - destruct i as [|i].
    + pose proof (deliver_approved w Hp) as Hd.
      destruct (deliver p w) as [[p' w1] l]. simpl in *.
      exists ((n + count_approvals l)%nat :: ns).
      split; [constructor; assumption | simpl; lia].
    + destruct (IH i) as [ns' [Hns' Hsum]].
      destruct (deliver_nth i ts w) as [[ts' w1] l]. simpl in *.
      exists (n :: ns'). split; [constructor; assumption | simpl; lia].
Qed.

Lemma run_each_approved (ns : list nat) (ts : list (Prog bool)) :
  Forall2 approved ns ts ->
  forall (w : World) bs w1 l,
    run_each ts w = (Ok bs, w1, l) ->
    (list_sum ns + count_approvals l)%nat = count_true bs.
Proof.
  induction 1 as [|n p ns ts Hp Hts IH]; intros w bs w1 l Hrun;
    simpl in Hrun.
  - inversion Hrun; subst. reflexivity.
  - destruct (run p w) as [[[b|e] w0] l0] eqn:Hp0; [|discriminate].
    destruct (run_each ts w0) as [[[vs|e] w2] l2] eqn:Hts0;
      [|discriminate].
    inversion Hrun; subst.
    pose proof (run_approved Hp w Hp0) as Hb.
    specialize (IH w0 vs w1 l2 Hts0).
    rewrite count_approvals_app. unfold count_true in *. simpl.
    destruct b; simpl; lia.
Qed.

Lemma promise_all_approved (sched : list nat) :
  forall (ns : list nat) (ts : list (Prog bool)) (w : World) bs w1 l,
    Forall2 approved ns ts ->
    promise_all sched ts w = (Ok bs, w1, l) ->
    (list_sum ns + count_approvals l)%nat = count_true bs.
Proof.
  induction sched as [|i sched IH]; intros ns ts w bs w1 l Hts Hall;
    simpl in Hall; destruct (first_rejection ts); try discriminate.
  - eapply run_each_approved; eassumption.
  - destruct (deliver_nth_approved i w Hts) as [ns' [Hns' Hsum]].
    destruct (deliver_nth i ts w) as [[ts' w0] l0]. simpl in *.
    destruct (promise_all sched ts' w0) as [[r w2] l2] eqn:Hrest.
    inversion Hall; subst.
    specialize (IH ns' ts' w0 bs w1 l2 Hns' Hrest).
    rewrite count_approvals_app. lia.
Qed.

Lemma approvalPromises_approved wallet entries :
  Forall2 approved (repeat 0%nat (List.length entries))
    (map (approvalPromise wallet) entries).
Proof.
  induction entries as [|a entries IH]; simpl; constructor;
    [apply approvalPromise_approved | exact IH].
Qed.

Lemma list_sum_repeat_0 (n : nat) : list_sum (repeat 0%nat n) = 0%nat.
Proof. induction n; simpl; auto. Qed.

(** C9, as the code has it.  [handleRequiredAllowances] returns
    [undefined] whenever it returns: no count.  The count exists only
    inside: when [Promise.all] fulfils, the number of [true] among the
    results of the callbacks is the number of approvals requested, for
    every schedule and gateway; that array is dropped. *)
Theorem reconciliation_returns_undefined :
  forall sched wallet (w : World),
    (forall required v,
       fst (fst (handleRequiredAllowances sched wallet required w)) = Ok v ->
       v = JUndefined) /\
    (forall entries bs w1 log,
       promise_all sched (map (approvalPromise wallet) entries) w
         = (Ok bs, w1, log) ->
       count_true bs = count_approvals log).
Proof.
  intros sched wallet w. split.
  - intros required v. unfold handleRequiredAllowances.
    destruct required as [entries|]; simpl; [|congruence].
    destruct (List.length entries =? 0)%nat; simpl; [congruence|].
    unfold bind_run.
    destruct (promise_all sched _ w) as [[[bs|e] w1] l1]; simpl;
      congruence.
  - intros entries bs w1 log Hall.
    pose proof (promise_all_approved sched w
                  (approvalPromises_approved wallet entries) Hall) as Hcount.
    rewrite list_sum_repeat_0 in Hcount. simpl in Hcount. auto.
Qed.

(** ** The guard on the transaction data *)


(** ** The gas price *)

(** C8, as the code has it.  The single swap takes the quote's [gasPrice]
    when it is there (truthy), converted by [BigNumber.from], and asks the
    node otherwise.  The rebalancing always asks the node, whatever the
    response carries. *)
Theorem gas_price_hint_only_in_single_swap :
  forall wallet (w : World),
    (forall qt t w1 l,
       run (swap_transaction wallet qt) w = (Ok t, w1, l) ->
       if truthy (q_gasPrice qt)
       then BigNumber_from (q_gasPrice qt) = Ok (gasPrice t) /\
            forallb (fun r => match r with GetGasPrice => false | _ => true end)
              l = true
       else fst (respond GetGasPrice w) = Ok (gasPrice t)) /\
    (forall rebalancingData t w1 l,
       run (rebalancing_transaction wallet rebalancingData) w = (Ok t, w1, l) ->
       fst (respond GetGasPrice w) = Ok (gasPrice t)).
Proof.
  intros wallet w. split.
  - intros qt t w1 l. unfold swap_transaction.
    destruct (if truthy (q_value qt) then _ else _) as [tx_value|e]; simpl;
      [|discriminate].
    destruct (truthy (q_gasPrice qt)).
    + destruct (BigNumber_from (q_gasPrice qt)) as [price|e]; simpl;
        [|discriminate].
      destruct (respond _ w) as [[nonce|e] w2]; simpl; [|discriminate].
      destruct (respond _ w2) as [[network|e] w3]; simpl; [|discriminate].
      intros Hrun. inversion Hrun; subst. split; reflexivity.
    + simpl. destruct (respond GetGasPrice w) as [[price|e] w2]; simpl;
        [|discriminate].
      destruct (respond _ w2) as [[nonce|e] w3]; simpl; [|discriminate].
      destruct (respond _ w3) as [[network|e] w4]; simpl; [|discriminate].
      intros Hrun. inversion Hrun; subst. reflexivity.
  - intros rebalancingData t w1 l. unfold rebalancing_transaction.
    destruct (if truthy (txValue rebalancingData) then _ else _)
      as [tx_value|e]; simpl; [|discriminate].
    destruct (respond GetGasPrice w) as [[price|e] w2]; simpl;
      [|discriminate].
    destruct (respond _ w2) as [[estimate|e] w3]; simpl;
      (destruct (respond _ w3) as [[nonce|e'] w4]; simpl; [|discriminate]);
      (destruct (respond _ w4) as [[network|e''] w5]; simpl; [|discriminate]);
      intros Hrun; inversion Hrun; subst; reflexivity.
Qed.

(** ** The order of estimate and submission *)

Lemma calls_only_weaken (P Q : Request -> bool) {A} (p : Prog A) :
  (forall r, P r = true -> Q r = true) -> calls_only P p -> calls_only Q p.
Proof.
  intros HPQ. induction 1; constructor; auto.
Qed.

Lemma calls_only_bind (P : Request -> bool) {A B} (p : Prog A)
    (f : A -> Prog B) :
  calls_only P p -> (forall a, calls_only P (f a)) -> calls_only P (bind p f).
Proof.
  intros Hp Hf. induction Hp; simpl; auto; constructor; auto.
Qed.

Lemma calls_only_try_catch (P : Request -> bool) {A} (p : Prog A)
    (h : JsError -> Prog A) :
  calls_only P p -> (forall e, calls_only P (h e)) ->
  calls_only P (try_catch p h).
Proof.
  intros Hp Hh. induction Hp; simpl; auto; constructor; auto.
Qed.

Lemma calls_only_await (P : Request -> bool) (r : Request) :
  P r = true -> calls_only P (await r).
Proof.
  intros Hr. constructor; [exact Hr|]. intros [a|e]; constructor.
Qed.

Lemma calls_only_lift (P : Request -> bool) {A} (x : Result A) :
  calls_only P (lift x).
Proof. destruct x; constructor. Qed.

Lemma signSendWait_not_estimate (t : Transaction) :
  calls_only not_estimate (signSendWait t).
Proof.
  unfold signSendWait.
  repeat (apply calls_only_bind; [now apply calls_only_await | intros ?]).
  constructor.
Qed.

(** The single swap never asks for a gas estimate. *)
Lemma swapWithThirtyOneThird_not_estimate wallet quoteData :
  calls_only not_estimate (swapWithThirtyOneThird wallet quoteData).
Proof.
  unfold swapWithThirtyOneThird.
  destruct (transaction quoteData) as [qt|]; [|constructor].
  apply calls_only_bind.
  { apply calls_only_weaken with (P := is_allowance_call);
      [now intros []|apply checkAndSetAllowance_calls]. }
  intros _. apply calls_only_bind.
  - unfold swap_transaction.
    apply calls_only_bind; [apply calls_only_lift | intros tx_value].
    apply calls_only_bind.
    { destruct (truthy (q_gasPrice qt));
        [apply calls_only_lift
        |now apply (calls_only_await not_estimate GetGasPrice)]. }
    intros price.
    repeat (apply calls_only_bind; [now apply calls_only_await | intros ?]).
    constructor.
  - intros t. unfold swap_submit. apply calls_only_try_catch.
    + apply signSendWait_not_estimate.
    + intros e. destruct (gas_limit_error e);
        [apply signSendWait_not_estimate | constructor].
Qed.

Lemma estimate_precedes_after_allowances (l1 l2 : list Request) :
  forallb is_allowance_call l1 = true ->
  estimate_precedes_submission (l1 ++ l2) = estimate_precedes_submission l2.
Proof.
  induction l1 as [|r l1 IH]; simpl; [reflexivity|].
  intros Hall. apply andb_prop in Hall as [Hr Hall].
  destruct r; try discriminate; simpl; auto.
Qed.

(** After the allowances, the rebalancing asks for the gas price and then
    for the estimate before anything else. *)
Lemma rebalancing_tail_estimates_first wallet rebalancingData (w : World) :
  estimate_precedes_submission
    (snd (run (transaction <- rebalancing_transaction wallet rebalancingData ;;
               receipt <- rebalancing_submit transaction ;;
               Ret (Some receipt)) w)) = true.
Proof.
  unfold rebalancing_transaction.
  destruct (if truthy (txValue rebalancingData) then _ else _)
    as [tx_value|e]; simpl; [|reflexivity].
  destruct (respond GetGasPrice w) as [[price|e] w1]; simpl; [|reflexivity].
  destruct (respond _ w1) as [[estimate|e] w2]; simpl;
    destruct (respond _ w2) as [x w3];
    match goal with
    | |- context [run ?p ?w0] => destruct (run p w0) as [[? ?] ?]
    end; reflexivity.
Qed.

(** The limit of the transaction the rebalancing builds: the buffered
    estimate when the estimate was answered, 3000000 only when it failed. *)
Lemma rebalancing_transaction_gasLimit wallet rebalancingData (w : World)
    t w' l :
  run (rebalancing_transaction wallet rebalancingData) w = (Ok t, w', l) ->
  match fst (respond (EstimateGas (wallet_address wallet) (to t) (data t)
                        (value t))
               (snd (respond GetGasPrice w))) with
  | Ok estimate => gasLimit t = bn_div (bn_mul estimate 120) 100
  | Err _ => gasLimit t = 3000000
  end.
Proof.
  unfold rebalancing_transaction.
  destruct (if truthy (txValue rebalancingData) then _ else _)
    as [tx_value|e]; simpl; [|discriminate].
  destruct (respond GetGasPrice w) as [[price|e] w1]; simpl;
    [|discriminate].
  destruct (respond (EstimateGas _ _ _ _) w1) as [[estimate|e] w2] eqn:Hest;
    simpl;
    (destruct (respond _ w2) as [[nonce|e'] w3]; simpl; [|discriminate]);
    (destruct (respond _ w3) as [[network|e''] w4]; simpl; [|discriminate]);
    intros Hrun; inversion Hrun; subst; simpl; rewrite Hest; reflexivity.
Qed.

Lemma swap_transaction_gasLimit wallet qt (w : World) t w' l :
  run (swap_transaction wallet qt) w = (Ok t, w', l) -> gasLimit t = 500000.
Proof.
  unfold swap_transaction.
  destruct (if truthy (q_value qt) then _ else _) as [tx_value|e]; simpl;
    [|discriminate].
  destruct (truthy (q_gasPrice qt)).
  - destruct (BigNumber_from (q_gasPrice qt)) as [price|e]; simpl;
      [|discriminate].
    destruct (respond _ w) as [[nonce|e] w2]; simpl; [|discriminate].
    destruct (respond _ w2) as [[network|e] w3]; simpl; [|discriminate].
    intros Hrun. inversion Hrun; subst. reflexivity.
  - simpl. destruct (respond GetGasPrice w) as [[price|e] w2]; simpl;
      [|discriminate].
    destruct (respond _ w2) as [[nonce|e] w3]; simpl; [|discriminate].
    destruct (respond _ w3) as [[network|e] w4]; simpl; [|discriminate].
    intros Hrun. inversion Hrun; subst. reflexivity.
Qed.

(** C3, as the code has it.  In the rebalancing, whatever the schedule
    and the gateway, no transaction is signed or sent through
    [signTransaction] / [sendTransaction] before a gas estimate has been
    asked for, and the transaction built carries 3000000 only when that
    estimate failed.  The single swap never asks for an estimate: the
    transaction it builds always carries 500000. *)
Theorem estimate_first_only_in_rebalancing :
  forall wallet (w : World),
    (forall sched rebalancingData,
       estimate_precedes_submission
         (snd (executeWalletRebalancing sched wallet rebalancingData w))
       = true) /\
    (forall rebalancingData t w1 l,
       run (rebalancing_transaction wallet rebalancingData) w = (Ok t, w1, l) ->
       match fst (respond (EstimateGas (wallet_address wallet) (to t) (data t)
                             (value t))
                    (snd (respond GetGasPrice w))) with
       | Ok estimate => gasLimit t = bn_div (bn_mul estimate 120) 100
       | Err _ => gasLimit t = 3000000
       end) /\
    (forall quoteData,
       forallb not_estimate
         (snd (run (swapWithThirtyOneThird wallet quoteData) w)) = true) /\
    (forall qt t w1 l,
       run (swap_transaction wallet qt) w = (Ok t, w1, l) ->
       gasLimit t = 500000).
Proof.
  intros wallet w. repeat split.
  - intros sched rebalancingData. unfold executeWalletRebalancing.
    destruct (_ || _); [reflexivity|]. unfold bind_run.
    pose proof (handleRequiredAllowances_calls sched wallet
                  (requiredAllowances rebalancingData) w) as Hcalls.
    destruct (handleRequiredAllowances sched wallet _ w)
      as [[[v|e] w1] l1]; simpl in Hcalls.
    + pose proof (rebalancing_tail_estimates_first wallet rebalancingData w1)
        as Htail.
      destruct (run _ w1) as [[r2 w2] l2]. simpl in *.
      rewrite estimate_precedes_after_allowances by exact Hcalls.
      exact Htail.
    + simpl. rewrite <- (app_nil_r l1).
      rewrite estimate_precedes_after_allowances by exact Hcalls.
      reflexivity.
  - intros rebalancingData t w1 l.
    apply rebalancing_transaction_gasLimit.
  - intros quoteData. apply run_calls_only,
      swapWithThirtyOneThird_not_estimate.
  - intros qt t w1 l. apply swap_transaction_gasLimit.
Qed.

(** ** A whole array of satisfied requirements *)

Lemma run_quiet (p : Prog bool) :
  quiet p ->
  forall w : World,
    fst (fst (run p w)) = Ok false /\ count_approvals (snd (run p w)) = 0%nat.
Proof.
  induction 1 as [|r k Hr Hk IH]; intros w; simpl; [now split|].
  specialize (IH w). destruct (respond r w) as [x w1]. simpl in IH.
  specialize (IH w1). destruct (run (k x) w1) as [[res w2] l]. simpl in *.
  unfold count_approvals in *. simpl. rewrite Hr. exact IH.
Qed.

Lemma first_rejection_quiet (ts : list (Prog bool)) :
  Forall quiet ts -> first_rejection ts = None.
Proof.
  induction 1 as [|p ts Hp _ IH]; simpl; [reflexivity|].
  destruct Hp; exact IH.
Qed.

Lemma deliver_nth_quiet (i : nat) (ts : list (Prog bool)) (w : World) :
  Forall quiet ts ->
  Forall quiet (fst (fst (deliver_nth i ts w))) /\
  count_approvals (snd (deliver_nth i ts w)) = 0%nat.
Proof.
  intros Hts. revert i. induction Hts as [|p ts Hp Hts IH]; intros i; simpl.
  - split; [constructor | reflexivity].
  - destruct i as [|i].
    + destruct Hp as [|r k Hr Hk]; simpl.
      * split; [repeat constructor; assumption | reflexivity].
      * specialize (Hk w). destruct (respond r w) as [x w1]. simpl in *.
        unfold count_approvals. simpl. rewrite Hr.
        split; [constructor; assumption | reflexivity].
    + specialize (IH i). destruct (deliver_nth i ts w) as [[ts' w1] l].
      simpl in *. destruct IH as [IH1 IH2].
      split; [constructor; assumption | assumption].
Qed.

Lemma run_each_quiet (ts : list (Prog bool)) :
  Forall quiet ts ->
  forall w : World,
    (exists bs, fst (fst (run_each ts w)) = Ok bs) /\
    count_approvals (snd (run_each ts w)) = 0%nat.
Proof.
  induction 1 as [|p ts Hp _ IH]; intros w; simpl.
  - split; [eexists; reflexivity | reflexivity].
  - destruct (run_quiet Hp w) as [Hres Hcount].
    destruct (run p w) as [[r w1] l1]. simpl in *. subst r.
    destruct (IH w1) as [[bs Hbs] Hcount2].
    destruct (run_each ts w1) as [[rs w2] l2]. simpl in *. subst rs.
    split; [eexists; reflexivity|].
    rewrite count_approvals_app. lia.
Qed.

Lemma promise_all_quiet (sched : list nat) :
  forall (ts : list (Prog bool)) (w : World),
    Forall quiet ts ->
    (exists bs, fst (fst (promise_all sched ts w)) = Ok bs) /\
    count_approvals (snd (promise_all sched ts w)) = 0%nat.
Proof.
  induction sched as [|i sched IH]; intros ts w Hts; simpl;
    rewrite (first_rejection_quiet Hts).
  - apply run_each_quiet, Hts.
  - destruct (deliver_nth_quiet i w Hts) as [Hts' Hcount].
    destruct (deliver_nth i ts w) as [[ts' w1] l1]. simpl in *.
    destruct (IH ts' w1 Hts') as [[bs Hbs] Hcount2].
    destruct (promise_all sched ts' w1) as [[r w2] l2]. simpl in *.
    split; [eexists; eassumption|].
    rewrite count_approvals_app. lia.
Qed.

(** When every entry is complete, converts, and is always reported as
    allowed for at least what it needs, [handleRequiredAllowances] returns -
    with [undefined] - and has requested no approval, whatever the
    schedule. *)
Lemma all_sufficient_reconciliation_is_noop sched wallet entries (w : World) :
  (forall allowance, In allowance entries ->
     exists tok needed,
       token allowance = Some tok /\
       incomplete allowance = false /\
       BigNumber_from (neededAllowance allowance) = Ok needed /\
       forall w' : World,
       exists currentAllowance,
         fst (respond (Allowance (tok_address tok) (wallet_address wallet)
                         (allowanceTarget allowance)) w')
           = Ok currentAllowance /\
         needed <= currentAllowance) ->
  fst (fst (handleRequiredAllowances sched wallet (Some entries) w))
    = Ok JUndefined /\
  count_approvals (snd (handleRequiredAllowances sched wallet (Some entries) w))
    = 0%nat.
Proof.
  intros Hall. unfold handleRequiredAllowances.
  destruct (List.length entries =? 0)%nat; [now split|].
  unfold bind_run.
  assert (Hquiet : Forall quiet (map (approvalPromise wallet) entries)).
  { apply Forall_forall. intros p Hp.
    apply in_map_iff in Hp as [allowance [<- Hin]].
    destruct (Hall allowance Hin) as [tok [needed [Htok [Hinc [Hfrom Hread]]]]].
    unfold approvalPromise. unfold incomplete in Hinc. rewrite Htok in *.
    rewrite Hinc, Hfrom. simpl.
    apply quiet_Await; [reflexivity|]. intros w'.
    destruct (Hread w') as [cur [-> Hge]]. simpl.
    unfold bn_lt. destruct (Z.ltb_spec cur needed) as [Hlt|_]; [lia|].
    constructor. }
  destruct (promise_all_quiet sched w Hquiet) as [[bs Hbs] Hcount].
  destruct (promise_all sched _ w) as [[r w1] l1]. simpl in *. subst r.
  simpl. rewrite app_nil_r. split; [reflexivity | exact Hcount].
Qed.

End Facts.

(** * The properties on the sample gateway *)


Lemma insufficient_allowance_approves_max_once_witness :
  let w := Sample.world0 in
  0 < 10 /\
  filter is_approve
    (snd (run (checkAndSetAllowance Sample.wallet (tok_address Sample.grt)
                 Sample.router 10) w))
  = [Approve (tok_address Sample.grt) Sample.router MaxUint256 100000 5].
Proof.
  intros w. split; [lia|].
  apply (@insufficient_allowance_approves_max_once Sample.World
           Sample.gateway Sample.wallet (tok_address Sample.grt)
           Sample.router 10 w 0 w 5 w);
    [reflexivity | lia | reflexivity].
Defined.

Lemma gas_estimate_buffer_or_default_witness :
  run (rebalancing_gasLimit Sample.wallet Sample.router (JString "0x") 0)
    (Sample.mkWorld 0 5 (Ok 100001) [])
  = (Ok 120001, Sample.mkWorld 0 5 (Ok 100001) [],
     [EstimateGas (wallet_address Sample.wallet) Sample.router
        (JString "0x") 0]) /\
  run (rebalancing_gasLimit Sample.wallet Sample.router (JString "0x") 0)
    (Sample.mkWorld 0 5 (Err (Error "execution reverted")) [])
  = (Ok 3000000, Sample.mkWorld 0 5 (Err (Error "execution reverted")) [],
     [EstimateGas (wallet_address Sample.wallet) Sample.router
        (JString "0x") 0]).
Proof.
  split.
  - apply (proj1 (proj2 (@gas_estimate_buffer_or_default Sample.World
             Sample.gateway Sample.wallet Sample.router (JString "0x") 0
             (Sample.mkWorld 0 5 (Ok 100001) []))) 100001);
      [reflexivity | lia].
  - apply (proj2 (proj2 (@gas_estimate_buffer_or_default Sample.World
             Sample.gateway Sample.wallet Sample.router (JString "0x") 0
             (Sample.mkWorld 0 5 (Err (Error "execution reverted")) [])))
             (Error "execution reverted")).
    reflexivity.
Defined.

Lemma retry_once_on_gas_limit_error_witness :
  let w :=
    Sample.mkWorld 0 5 (Ok 100000) [Error "transaction exceeds gas limit"] in
  let t := Scenario.pending in
  let sent := mkTxResponse "0xb2" in
  run (rebalancing_submit t) w
  = (Ok (Sample.receipt_of sent), Sample.world0,
     [SignTransaction t; SendTransaction "0xf86b";
      SignTransaction (set_gasLimit t 4500000); SendTransaction "0xf86b";
      Wait sent 1]) /\
  run (swap_submit t) w
  = (Ok (Sample.receipt_of sent), Sample.world0,
     [SignTransaction t; SendTransaction "0xf86b";
      SignTransaction (set_gasLimit t 750000); SendTransaction "0xf86b";
      Wait sent 1]).
Proof.
  intros w t sent.
  pose proof (@retry_once_on_gas_limit_error Sample.World Sample.gateway
                t w) as Hretry.
  vm_compute in Hretry.
  destruct Hretry as [_ [[Hreb _] [[Hswap _] _]]].
  split; [exact Hreb | exact Hswap].
Defined.

Lemma missing_field_fails_reconciliation_witness :
  let complete := Scenario.grt_needed (JNumber 10) in
  let lacking := mkRequiredAllowance (Some Sample.grt) JUndefined (JNumber 10) in
  In lacking [complete; lacking] /\
  allowanceTarget lacking = JUndefined /\
  exists e,
    fst (fst (handleRequiredAllowances [0%nat; 1%nat] Sample.wallet
                (Some [complete; lacking]) Sample.world0)) = Err e.
Proof.
  intros complete lacking.
  split; [right; left; reflexivity|]. split; [reflexivity|].
  apply (@missing_field_fails_reconciliation Sample.World Sample.gateway
           Sample.ethers [0%nat; 1%nat] Sample.wallet [complete; lacking]
           lacking Sample.world0).
  - right; left; reflexivity.
  - right; right; left; reflexivity.
Defined.

Lemma zero_needed_allowance_is_rejected_witness :
  let zero := Scenario.grt_needed (JNumber 0) in
  In zero [zero] /\
  neededAllowance zero = JNumber 0 /\
  (exists e,
     fst (fst (handleRequiredAllowances [] Sample.wallet (Some [zero])
                 Sample.world0)) = Err e) /\
  approvalPromise Sample.wallet zero
    = Throw (Error "Incomplete allowance data").
Proof.
  intros zero.
  pose proof (@zero_needed_allowance_is_rejected Sample.World Sample.gateway
                Sample.ethers [] Sample.wallet [zero] zero Sample.world0
                (or_introl eq_refl) eq_refl) as [Hthrows [Hcallback _]].
  split; [left; reflexivity|]. split; [reflexivity|].
  split; [exact Hthrows | exact (Hcallback Sample.grt eq_refl)].
Defined.

Lemma reconciliation_returns_undefined_witness :
  let entries :=
    [Scenario.grt_needed (JNumber 10); Scenario.grt_needed (JNumber 20)] in
  exists bs w1 log,
    promise_all [1%nat; 0%nat; 1%nat]
      (map (approvalPromise Sample.wallet) entries) Sample.world0
    = (Ok bs, w1, log) /\
    count_true bs = count_approvals log /\
    fst (fst (handleRequiredAllowances [1%nat; 0%nat; 1%nat] Sample.wallet
                (Some entries) Sample.world0)) = Ok JUndefined.
Proof.
  intros entries. eexists. eexists. eexists.
  split; [vm_compute; reflexivity|]. split.
  - eapply (proj2 (@reconciliation_returns_undefined Sample.World
              Sample.gateway Sample.ethers [1%nat; 0%nat; 1%nat] Sample.wallet
              Sample.world0) entries).
    vm_compute. reflexivity.
  - reflexivity.
Defined.


Lemma gas_price_hint_only_in_single_swap_witness :
  let hinted := mkQuoteTransaction Sample.router (JString "0x") JUndefined
                  (JNumber 9) in
  let built_swap :=
    mkTransaction Sample.router (JString "0x") 0 500000 9 7 1 in
  let built_rebalancing :=
    mkTransaction Sample.router (JString "0x12aa3caf") 0 120000 5 7 1 in
  run (swap_transaction Sample.wallet hinted) Sample.world0
    = (Ok built_swap, Sample.world0,
       [GetTransactionCount (wallet_address Sample.wallet) "latest";
        GetNetwork]) /\
  BigNumber_from (q_gasPrice hinted) = Ok (gasPrice built_swap) /\
  fst (respond GetGasPrice Sample.world0) = Ok (gasPrice built_rebalancing).
Proof.
  intros hinted built_swap built_rebalancing.
  pose proof (@gas_price_hint_only_in_single_swap Sample.World Sample.gateway
                Sample.ethers Sample.wallet Sample.world0) as [Hswap Hreb].
  split; [reflexivity|]. split.
  - exact (proj1 (Hswap hinted built_swap Sample.world0 _ eq_refl)).
  - exact (Hreb Scenario.plan built_rebalancing Sample.world0 _ eq_refl).
Defined.

Lemma estimate_first_only_in_rebalancing_witness :
  let built :=
    mkTransaction Sample.router (JString "0x12aa3caf") 0 120000 5 7 1 in
  run (rebalancing_transaction Sample.wallet Scenario.plan) Sample.world0
    = (Ok built, Sample.world0,
       [GetGasPrice;
        EstimateGas (wallet_address Sample.wallet) Sample.router
          (JString "0x12aa3caf") 0;
        GetTransactionCount (wallet_address Sample.wallet) "latest";
        GetNetwork]) /\
  gasLimit built = bn_div (bn_mul 100000 120) 100 /\
  estimate_precedes_submission
    (snd (executeWalletRebalancing [] Sample.wallet Scenario.plan
            Sample.world0)) = true.
Proof.
  intros built.
  pose proof (@estimate_first_only_in_rebalancing Sample.World Sample.gateway
                Sample.ethers Sample.wallet Sample.world0)
    as [Horder [Hlimit _]].
  split; [reflexivity|]. split.
  - exact (Hlimit Scenario.plan built Sample.world0 _ eq_refl).
  - exact (Horder [] Scenario.plan).
Defined.

(** ** Where the code departs from the specification *)

(** Against C3: the single swap signs and sends with the limit 500000
    without ever asking for an estimate. *)
Lemma single_swap_signs_without_estimate :
  let log :=
    snd (run (swapWithThirtyOneThird Sample.wallet Scenario.quote)
           Sample.world0) in
  existsb is_estimate log = false /\
  In (SignTransaction
        (mkTransaction Sample.router (JString "0x12aa3caf") 0 500000 9 7 1))
     log /\
  In (SendTransaction "0xf86b") log /\
  estimate_precedes_submission log = false.
Proof.
  vm_compute. repeat split; tauto.
Qed.


(** Against C8: the rebalancing response carries the gas price 7, the node
    says 5, and the transaction signed carries 5. *)
Lemma rebalancing_ignores_gas_price_hint :
  rb_gasPrice Scenario.plan = JNumber 7 /\
  fst (respond GetGasPrice Sample.world0) = Ok 5 /\
  In (SignTransaction
        (mkTransaction Sample.router (JString "0x12aa3caf") 0 120000 5 7 1))
     (snd (executeWalletRebalancing [] Sample.wallet Scenario.plan
             Sample.world0)).
Proof.
  vm_compute. repeat split; tauto.
Qed.

(** Against C9: one approval is requested and the call returns
    [undefined], not 1. *)
Lemma reconciliation_result_is_not_a_count :
  let out :=
    handleRequiredAllowances [] Sample.wallet
      (Some [Scenario.grt_needed (JNumber 10)]) Sample.world0 in
  count_approvals (snd out) = 1%nat /\
  fst (fst out) = Ok JUndefined /\
  fst (fst out) <> Ok (JNumber 1).
Proof.
  repeat split. discriminate.
Qed.

(** * Further properties of the two flows *)

Section Flows.

Context {World : Type} `{Gateway World} `{Ethers}.

(** ** Requests and results of a tree *)

Lemma sat_weaken {A} (P P' : Request -> Prop) (Q Q' : A -> Prop)
    (p : Prog A) :
  (forall r, P r -> P' r) -> (forall a, Q a -> Q' a) ->
  sat P Q p -> sat P' Q' p.
Proof.
  intros HP HQ. induction 1; constructor; auto.
Qed.

Lemma sat_bind {A B} (P : Request -> Prop) (Q : A -> Prop) (Q' : B -> Prop)
    (p : Prog A) (f : A -> Prog B) :
  sat P Q p -> (forall a, Q a -> sat P Q' (f a)) -> sat P Q' (bind p f).
Proof.
  intros Hp Hf. induction Hp; simpl; auto; constructor; auto.
Qed.

Lemma sat_try_catch {A} (P : Request -> Prop) (Q : A -> Prop) (p : Prog A)
    (h : JsError -> Prog A) :
  sat P Q p -> (forall e, sat P Q (h e)) -> sat P Q (try_catch p h).
Proof.
  intros Hp Hh. induction Hp; simpl; auto; constructor; auto.
Qed.

Lemma sat_await (P : Request -> Prop) (r : Request) :
  P r -> sat P (fun _ => True) (await r).
Proof.
  intros Hr. constructor; [exact Hr|]. intros [a|e]; constructor. exact I.
Qed.

Lemma sat_lift {A} (P : Request -> Prop) (Q : A -> Prop) (x : Result A) :
  (forall a, x = Ok a -> Q a) -> sat P Q (lift x).
Proof.
  destruct x; intros Hx; constructor. auto.
Qed.

Lemma run_sat {A} (P : Request -> Prop) (Q : A -> Prop) (p : Prog A) :
  sat P Q p ->
  forall w : World,
    Forall P (snd (run p w)) /\
    (forall a, fst (fst (run p w)) = Ok a -> Q a).
Proof.
  induction 1 as [a Ha|e|r k Hr _ IH]; intros w; simpl.
  - split; [constructor|]. intros a' Heq. inversion Heq; subst. exact Ha.
  - split; [constructor | discriminate].
  - destruct (respond r w) as [x w1]. specialize (IH x w1).
    destruct (run (k x) w1) as [[res w2] l]. simpl in *.
    destruct IH as [IH1 IH2]. split; [constructor; assumption | exact IH2].
Qed.

Lemma deliver_nth_sat {A} (P : Request -> Prop) (Q : A -> Prop) (i : nat)
    (ts : list (Prog A)) (w : World) :
  Forall (sat P Q) ts ->
  Forall (sat P Q) (fst (fst (deliver_nth i ts w))) /\
  Forall P (snd (deliver_nth i ts w)).
Proof.
  intros Hts. revert i. induction Hts as [|p ts Hp Hts IH]; intros i; simpl.
  - split; constructor.
  - destruct i as [|i].
    + destruct Hp as [a Ha|e|r k Hr Hk]; simpl.
      * split; repeat constructor; assumption.
      * split; repeat constructor; assumption.
      * destruct (respond r w) as [x w1]. simpl.
        split; repeat constructor; auto.
    + specialize (IH i). destruct (deliver_nth i ts w) as [[ts' w1] l].
      simpl in *. destruct IH as [IH1 IH2].
      split; [constructor; assumption | assumption].
Qed.

Lemma run_each_sat {A} (P : Request -> Prop) (Q : A -> Prop)
    (ts : list (Prog A)) :
  Forall (sat P Q) ts -> forall w : World, Forall P (snd (run_each ts w)).
Proof.
  induction 1 as [|p ts Hp _ IH]; intros w; simpl; [constructor|].
  destruct (run_sat Hp w) as [Hl _].
  destruct (run p w) as [[[a|e] w1] l1]; simpl in *; [|exact Hl].
  specialize (IH w1). destruct (run_each ts w1) as [[rs w2] l2]. simpl in *.
  apply Forall_app. split; assumption.
Qed.

Lemma promise_all_sat {A} (P : Request -> Prop) (Q : A -> Prop)
    (sched : list nat) :
  forall (ts : list (Prog A)) (w : World),
    Forall (sat P Q) ts -> Forall P (snd (promise_all sched ts w)).
Proof.
  induction sched as [|i sched IH]; intros ts w Hts; simpl;
    destruct (first_rejection ts); try constructor.
  - apply (run_each_sat Hts).
  - destruct (deliver_nth_sat i w Hts) as [Hts' Hl].
    destruct (deliver_nth i ts w) as [[ts' w1] l1]. simpl in *.
    specialize (IH ts' w1 Hts').
    destruct (promise_all sched ts' w1) as [[r w2] l2]. simpl in *.
    apply Forall_app. split; assumption.
Qed.

(** ** Weighted counts along a tree *)

Lemma tally_app (c : Request -> Z) (l1 l2 : list Request) :
  tally c (l1 ++ l2) = tally c l1 + tally c l2.
Proof.
  induction l1 as [|r l1 IH]; simpl; [reflexivity | rewrite IH; lia].
Qed.

Lemma run_account {A} (c : Request -> Z) (final : A -> Z) (n : Z)
    (p : Prog A) :
  account c final n p ->
  forall (w : World) a w1 l,
    run p w = (Ok a, w1, l) -> n + tally c l = final a.
Proof.
  induction 1 as [a|n e|n r k _ IH]; intros w a' w1 l Hrun; simpl in Hrun.
  - inversion Hrun; subst. simpl. lia.
  - discriminate.
  - destruct (respond r w) as [x w0].
    destruct (run (k x) w0) as [[res w2] l0] eqn:Hk.
    inversion Hrun; subst. specialize (IH x w0 a' w1 l0 Hk). simpl. lia.
Qed.

Lemma deliver_nth_account {A} (c : Request -> Z) (final : A -> Z) (i : nat)
    (ns : list Z) (ts : list (Prog A)) (w : World) :
  Forall2 (account c final) ns ts ->
  exists ns',
    Forall2 (account c final) ns' (fst (fst (deliver_nth i ts w))) /\
    zsum ns' = zsum ns + tally c (snd (deliver_nth i ts w)).
Proof.
  intros Hts. revert i. induction Hts as [|n p ns ts Hp Hts IH]; intros i;
    simpl.
  - exists []. split; [constructor | reflexivity].
  - destruct i as [|i].
    + destruct Hp as [a|n e|n r k Hk]; simpl.
      * exists (final a :: ns). split; [repeat constructor; assumption|].
        simpl. lia.
      * exists (n :: ns). split; [repeat constructor; assumption|].
        simpl. lia.
      * destruct (respond r w) as [x w1]. simpl.
        exists ((n + c r) :: ns). split; [constructor; auto|]. simpl. lia.
    + destruct (IH i) as [ns' [Hns' Hsum]].
      destruct (deliver_nth i ts w) as [[ts' w1] l]. simpl in *.
      exists (n :: ns'). split; [constructor; assumption | simpl; lia].
Qed.

Lemma run_each_account {A} (c : Request -> Z) (final : A -> Z)
    (ns : list Z) (ts : list (Prog A)) :
  Forall2 (account c final) ns ts ->
  forall (w : World) vs w1 l,
    run_each ts w = (Ok vs, w1, l) ->
    zsum ns + tally c l = zsum (map final vs) /\
    List.length vs = List.length ts.
Proof.
  induction 1 as [|n p ns ts Hp Hts IH]; intros w vs w1 l Hrun;
    simpl in Hrun.
  - inversion Hrun; subst. split; reflexivity.
  - destruct (run p w) as [[[a|e] w0] l0] eqn:Hp0; [|discriminate].
    destruct (run_each ts w0) as [[[vs0|e] w2] l2] eqn:Hts0;
      [|discriminate].
    inversion Hrun; subst.
    pose proof (run_account Hp w Hp0) as Ha.
    destruct (IH w0 vs0 w1 l2 Hts0) as [IH1 IH2].
    rewrite tally_app. simpl. split; lia.
Qed.

Lemma deliver_nth_length {A} (i : nat) (ts : list (Prog A)) (w : World) :
  List.length (fst (fst (deliver_nth i ts w))) = List.length ts.
Proof.
  revert i. induction ts as [|p ts IH]; intros i; simpl; [reflexivity|].
  destruct i as [|i].
  - destruct (deliver p w) as [[p' w1] l]. reflexivity.
  - specialize (IH i). destruct (deliver_nth i ts w) as [[ts' w1] l].
    simpl in *. congruence.
Qed.

Lemma promise_all_account {A} (c : Request -> Z) (final : A -> Z)
    (sched : list nat) :
  forall (ns : list Z) (ts : list (Prog A)) (w : World) vs w1 l,
    Forall2 (account c final) ns ts ->
    promise_all sched ts w = (Ok vs, w1, l) ->
    zsum ns + tally c l = zsum (map final vs) /\
    List.length vs = List.length ts.
Proof.
  induction sched as [|i sched IH]; intros ns ts w vs w1 l Hts Hall;
    simpl in Hall; destruct (first_rejection ts); try discriminate.
  - eapply run_each_account; eassumption.
  - destruct (deliver_nth_account i w Hts) as [ns' [Hns' Hsum]].
    pose proof (deliver_nth_length i ts w) as Hlen.
    destruct (deliver_nth i ts w) as [[ts' w0] l0]. simpl in *.
    destruct (promise_all sched ts' w0) as [[r w2] l2] eqn:Hrest.
    inversion Hall; subst.
    destruct (IH ns' ts' w0 vs w1 l2 Hns' Hrest) as [IH1 IH2].
    rewrite tally_app. split; lia.
Qed.

Lemma tally_read_weight (l : list Request) :
  tally read_weight l = Z.of_nat (count_reads l).
Proof.
  unfold count_reads. induction l as [|r l IH]; [reflexivity|].
  cbn [tally filter]. unfold read_weight at 1.
  destruct (is_read r); cbn [List.length]; lia.
Qed.

Lemma tally_unconfirmed_weight (l : list Request) :
  tally unconfirmed_weight l
  = Z.of_nat (count_approvals l) - Z.of_nat (count_waits l).
Proof.
  unfold count_approvals, count_waits.
  induction l as [|r l IH]; [reflexivity|].
  cbn [tally filter]. unfold unconfirmed_weight at 1.
  destruct r; cbn [is_approve is_wait List.length]; lia.
Qed.

(** ** What each block may request *)

Lemma checkAndSetAllowance_sat (P : Request -> Prop) wallet tokenAddress
    spenderAddress amount :
  P (Allowance tokenAddress (wallet_address wallet) spenderAddress) ->
  P GetGasPrice ->
  (forall price,
     P (Approve tokenAddress spenderAddress MaxUint256 100000 price)) ->
  (forall approveTx, P (Wait approveTx 1)) ->
  sat P (fun _ : bool => True)
    (checkAndSetAllowance wallet tokenAddress spenderAddress amount).
Proof.
  intros Hread Hprice Happrove Hwait. unfold checkAndSetAllowance. simpl.
  constructor; [exact Hread|]. intros [cur|e]; simpl; [|constructor].
  destruct (bn_lt cur amount); simpl; [|now constructor].
  constructor; [exact Hprice|]. intros [price|e]; simpl; [|constructor].
  constructor; [apply Happrove|]. intros [approveTx|e]; simpl;
    [|constructor].
  constructor; [apply Hwait|]. intros [receipt|e]; simpl; now constructor.
Qed.

Lemma signSendWait_sat (P : Request -> Prop) (t : Transaction) :
  P (SignTransaction t) ->
  (forall signedTx, P (SendTransaction signedTx)) ->
  (forall txResponse, P (Wait txResponse 1)) ->
  sat P (fun _ : Receipt => True) (signSendWait t).
Proof.
  intros Hsign Hsend Hwait. unfold signSendWait. simpl.
  constructor; [exact Hsign|]. intros [signedTx|e]; simpl; [|constructor].
  constructor; [apply Hsend|]. intros [txResponse|e]; simpl; [|constructor].
  constructor; [apply Hwait|]. intros [receipt|e]; simpl; now constructor.
Qed.

Lemma rebalancing_submit_sat (P : Request -> Prop) (t : Transaction) :
  P (SignTransaction t) ->
  P (SignTransaction
       (set_gasLimit t (bn_div (bn_mul (gasLimit t) 150) 100))) ->
  (forall signedTx, P (SendTransaction signedTx)) ->
  (forall txResponse, P (Wait txResponse 1)) ->
  sat P (fun _ : Receipt => True) (rebalancing_submit t).
Proof.
  intros Hsign Hretry Hsend Hwait. unfold rebalancing_submit.
  apply sat_try_catch; [now apply signSendWait_sat|].
  intros e. destruct (gas_limit_error e);
    [now apply signSendWait_sat | constructor].
Qed.

Lemma swap_submit_sat (P : Request -> Prop) (t : Transaction) :
  P (SignTransaction t) ->
  P (SignTransaction (set_gasLimit t 750000)) ->
  (forall signedTx, P (SendTransaction signedTx)) ->
  (forall txResponse, P (Wait txResponse 1)) ->
  sat P (fun _ : Receipt => True) (swap_submit t).
Proof.
  intros Hsign Hretry Hsend Hwait. unfold swap_submit.
  apply sat_try_catch; [now apply signSendWait_sat|].
  intros e. destruct (gas_limit_error e);
    [now apply signSendWait_sat | constructor].
Qed.

Lemma rebalancing_transaction_sat (P : Request -> Prop) wallet
    rebalancingData :
  P GetGasPrice ->
  (forall tx_value,
     P (EstimateGas (wallet_address wallet) (txHandler rebalancingData)
          (txData rebalancingData) tx_value)) ->
  P (GetTransactionCount (wallet_address wallet) "latest") ->
  P GetNetwork ->
  sat P (carries_plan rebalancingData)
    (rebalancing_transaction wallet rebalancingData).
Proof.
  intros Hprice Hestimate Hnonce Hnetwork.
  unfold rebalancing_transaction, carries_plan.
  destruct (truthy (txValue rebalancingData)).
  - destruct (BigNumber_from (txValue rebalancingData)) as [tx_value|e];
      simpl; [|constructor].
    constructor; [exact Hprice|]. intros [price|e]; simpl; [|constructor].
    constructor; [apply Hestimate|].
    intros [estimate|e]; simpl;
      (constructor; [exact Hnonce|]; intros [nonce|e']; simpl;
       [|constructor]);
      (constructor; [exact Hnetwork|]; intros [network|e'']; simpl;
       [|constructor]);
      constructor; simpl; auto.
  - simpl.
    constructor; [exact Hprice|]. intros [price|e]; simpl; [|constructor].
    constructor; [apply Hestimate|].
    intros [estimate|e]; simpl;
      (constructor; [exact Hnonce|]; intros [nonce|e']; simpl;
       [|constructor]);
      (constructor; [exact Hnetwork|]; intros [network|e'']; simpl;
       [|constructor]);
      constructor; simpl; auto.
Qed.

(** The part of [executeWalletRebalancing] after the allowances. *)
Lemma rebalancing_tail_sat (P : Request -> Prop) wallet rebalancingData :
  P GetGasPrice ->
  (forall tx_value,
     P (EstimateGas (wallet_address wallet) (txHandler rebalancingData)
          (txData rebalancingData) tx_value)) ->
  P (GetTransactionCount (wallet_address wallet) "latest") ->
  P GetNetwork ->
  (forall t, carries_plan rebalancingData t -> P (SignTransaction t)) ->
  (forall signedTx, P (SendTransaction signedTx)) ->
  (forall txResponse, P (Wait txResponse 1)) ->
  sat P (fun _ : option Receipt => True)
    (transaction <- rebalancing_transaction wallet rebalancingData ;;
     receipt <- rebalancing_submit transaction ;;
     Ret (Some receipt)).
Proof.
  intros Hprice Hestimate Hnonce Hnetwork Hsign Hsend Hwait.
  eapply sat_bind; [now apply rebalancing_transaction_sat|].
  intros t Ht. eapply sat_bind.
  - apply rebalancing_submit_sat; auto.
  - intros receipt _. now constructor.
Qed.

Lemma executeWalletRebalancing_log (P : Request -> Prop) sched wallet
    rebalancingData (w : World) :
  Forall P (snd (handleRequiredAllowances sched wallet
                   (requiredAllowances rebalancingData) w)) ->
  sat P (fun _ : option Receipt => True)
    (transaction <- rebalancing_transaction wallet rebalancingData ;;
     receipt <- rebalancing_submit transaction ;;
     Ret (Some receipt)) ->
  Forall P (snd (executeWalletRebalancing sched wallet rebalancingData w)).
Proof.
  intros Hallow Htail. unfold executeWalletRebalancing.
  destruct (_ || _); [constructor|]. unfold bind_run.
  destruct (handleRequiredAllowances sched wallet _ w) as [[[v|e] w1] l1];
    simpl in *; [|exact Hallow].
  destruct (run_sat Htail w1) as [Hl2 _].
  destruct (run _ w1) as [[r2 w2] l2]. simpl in *.
  apply Forall_app. split; assumption.
Qed.

(** ** What the boolean of checkAndSetAllowance means *)

(** X1.  When [checkAndSetAllowance] returns [true] it has read an
    allowance below the amount, sent one approval of [MaxUint256] and awaited
    one confirmation of it; when it returns [false] it has only read an
    allowance that covers the amount. *)
Theorem checkAndSetAllowance_result :
  forall wallet tokenAddress spenderAddress amount (w : World) b w' log,
    run (checkAndSetAllowance wallet tokenAddress spenderAddress amount) w
      = (Ok b, w', log) ->
    let read :=
      Allowance tokenAddress (wallet_address wallet) spenderAddress in
    exists currentAllowance w1,
      respond read w = (Ok currentAllowance, w1) /\
      if b then
        currentAllowance < amount /\
        exists price approveTx,
          log = [read; GetGasPrice;
                 Approve tokenAddress spenderAddress MaxUint256 100000 price;
                 Wait approveTx 1]
      else
        amount <= currentAllowance /\ log = [read] /\ w' = w1.
Proof.
  intros wallet tokenAddress spenderAddress amount w b w' log Hrun read.
  unfold checkAndSetAllowance in Hrun. simpl in Hrun. fold read in Hrun.
  destruct (respond read w) as [[cur|e] w1]; simpl in Hrun; [|discriminate].
  exists cur, w1. split; [reflexivity|].
  unfold bn_lt in Hrun. destruct (Z.ltb_spec cur amount) as [Hlt|Hge];
    simpl in Hrun.
  - destruct (respond GetGasPrice w1) as [[price|e] w2]; simpl in Hrun;
      [|discriminate].
    destruct (respond _ w2) as [[approveTx|e] w3]; simpl in Hrun;
      [|discriminate].
    destruct (respond _ w3) as [[receipt|e] w4]; simpl in Hrun;
      [|discriminate].
    inversion Hrun; subst. split; [exact Hlt | eauto].
  - inversion Hrun; subst. auto.
Qed.

(** ** Where approvals can go *)

Lemma approvalPromise_entry wallet allowance :
  sat (entry_request wallet allowance) (fun _ : bool => True)
    (approvalPromise wallet allowance).
Proof.
  unfold approvalPromise.
  destruct (token allowance) as [tok|] eqn:Htok; [|constructor].
  destruct (_ || _); [constructor|].
  destruct (BigNumber_from (neededAllowance allowance)) as [amount|e]; simpl;
    [|constructor].
  apply checkAndSetAllowance_sat; intros; exists tok; simpl; auto.
Qed.

Lemma handleRequiredAllowances_entries sched wallet required (w : World) :
  Forall (fun r =>
            exists entries allowance,
              required = Some entries /\ In allowance entries /\
              entry_request wallet allowance r)
    (snd (handleRequiredAllowances sched wallet required w)).
Proof.
  unfold handleRequiredAllowances.
  destruct required as [entries|]; [|constructor].
  destruct (List.length entries =? 0)%nat; [constructor|].
  unfold bind_run.
  assert (Hts : Forall
    (sat (fun r => exists entries0 allowance,
                     Some entries = Some entries0 /\ In allowance entries0 /\
                     entry_request wallet allowance r)
         (fun _ : bool => True))
    (map (approvalPromise wallet) entries)).
  { apply Forall_forall. intros p Hp.
    apply in_map_iff in Hp as [allowance [<- Hin]].
    eapply sat_weaken; [| |apply approvalPromise_entry]; eauto. }
  pose proof (promise_all_sat sched w Hts) as Hlog.
  destruct (promise_all sched _ w) as [[[bs|e] w1] l1]; simpl in *.
  - rewrite app_nil_r. exact Hlog.
  - exact Hlog.
Qed.

(** X2.  Whatever the schedule and the gateway, every allowance read and
    every approval of a rebalancing run is for the token and the
    [allowanceTarget] of one entry of [requiredAllowances]: the read is for
    the wallet's own address, the approval is of [MaxUint256] with gas limit
    100000.  No other owner, token or spender is ever read or approved. *)
Theorem approvals_only_for_required_entries :
  forall sched wallet rebalancingData (w : World) r,
    In r (snd (executeWalletRebalancing sched wallet rebalancingData w)) ->
    is_read r = true \/ is_approve r = true ->
    exists entries allowance,
      requiredAllowances rebalancingData = Some entries /\
      In allowance entries /\
      entry_request wallet allowance r.
Proof.
  intros sched wallet rebalancingData w r Hin Hkind.
  pose (P := fun r : Request =>
    is_read r = true \/ is_approve r = true ->
    exists entries allowance,
      requiredAllowances rebalancingData = Some entries /\
      In allowance entries /\ entry_request wallet allowance r).
  assert (Hlog : Forall P
            (snd (executeWalletRebalancing sched wallet rebalancingData w))).
  { apply executeWalletRebalancing_log.
    - eapply Forall_impl; [|apply handleRequiredAllowances_entries].
      intros r0 Hr0 _. exact Hr0.
    - apply rebalancing_tail_sat; unfold P; simpl; intros;
        match goal with
        | Hk : _ \/ _ |- _ => destruct Hk; discriminate
        end. }
  rewrite Forall_forall in Hlog. exact (Hlog r Hin Hkind).
Qed.

(** ** What is signed *)

(** X3.  Whatever the schedule and the gateway, every transaction that a
    rebalancing run hands to [signTransaction] - the first attempt and the
    retry alike - goes to the response's [txHandler] with the response's
    [txData], both present, and carries the response's [txValue] as
    converted by [BigNumber.from], or 0 when [txValue] is absent. *)
Theorem signed_transaction_carries_plan :
  forall sched wallet rebalancingData (w : World) t,
    In (SignTransaction t)
       (snd (executeWalletRebalancing sched wallet rebalancingData w)) ->
    to t = txHandler rebalancingData /\
    data t = txData rebalancingData /\
    truthy (to t) = true /\ truthy (data t) = true /\
    if truthy (txValue rebalancingData)
    then BigNumber_from (txValue rebalancingData) = Ok (value t)
    else value t = 0.
Proof.
  intros sched wallet rebalancingData w t Hin.
  pose (P := fun r : Request =>
    match r with
    | SignTransaction t0 => carries_plan rebalancingData t0
    | _ => True
    end).
  assert (Hlog : Forall P
            (snd (executeWalletRebalancing sched wallet rebalancingData w))).
  { apply executeWalletRebalancing_log.
    - pose proof (handleRequiredAllowances_calls sched wallet
                    (requiredAllowances rebalancingData) w) as Hcalls.
      rewrite forallb_forall in Hcalls. apply Forall_forall.
      intros r Hr. specialize (Hcalls r Hr). destruct r; try discriminate;
        exact I.
    - apply rebalancing_tail_sat; unfold P; simpl; auto. }
  rewrite Forall_forall in Hlog. specialize (Hlog _ Hin). simpl in Hlog.
  destruct Hlog as [Hto [Hdata Hvalue]].
  unfold executeWalletRebalancing in Hin.
  destruct (truthy (txHandler rebalancingData)) eqn:Hhandler;
    [|simpl in Hin; contradiction].
  destruct (truthy (txData rebalancingData)) eqn:Hpayload;
    [|simpl in Hin; contradiction].
  rewrite Hto, Hdata. auto.
Qed.

(** ** The single swap *)

Lemma swap_transaction_sat (P : Request -> Prop) wallet qt :
  P GetGasPrice ->
  P (GetTransactionCount (wallet_address wallet) "latest") ->
  P GetNetwork ->
  sat P
    (fun t => to t = q_to qt /\ data t = q_data qt /\ gasLimit t = 500000)
    (swap_transaction wallet qt).
Proof.
  intros Hprice Hnonce Hnetwork. unfold swap_transaction.
  destruct (if truthy (q_value qt) then _ else _) as [tx_value|e]; simpl;
    [|constructor].
  destruct (truthy (q_gasPrice qt)).
  - destruct (BigNumber_from (q_gasPrice qt)) as [price|e]; simpl;
      [|constructor].
    constructor; [exact Hnonce|]. intros [nonce|e]; simpl; [|constructor].
    constructor; [exact Hnetwork|]. intros [network|e]; simpl;
      [|constructor].
    constructor. simpl. auto.
  - simpl. constructor; [exact Hprice|]. intros [price|e]; simpl;
      [|constructor].
    constructor; [exact Hnonce|]. intros [nonce|e]; simpl; [|constructor].
    constructor; [exact Hnetwork|]. intros [network|e]; simpl;
      [|constructor].
    constructor. simpl. auto.
Qed.

(** X4.  In the single swap, whatever the gateway answers: the allowance
    read and the approval are for USDT and for the spender
    [quoteData.transaction.to], the approval is of [MaxUint256]; every
    transaction signed goes to that same address with the quote's data and
    a gas limit of 500000 or 750000; every confirmation wait is for one
    confirmation; the nonce is read for the wallet at "latest". *)
Theorem swap_requests_follow_quote :
  forall wallet quoteData (w : World) r,
    In r (snd (run (swapWithThirtyOneThird wallet quoteData) w)) ->
    exists qt,
      transaction quoteData = Some qt /\ swap_request wallet qt r.
Proof.
  intros wallet quoteData w r Hin.
  unfold swapWithThirtyOneThird in Hin.
  destruct (transaction quoteData) as [qt|]; [|simpl in Hin; contradiction].
  exists qt. split; [reflexivity|].
  assert (Hsat : sat (swap_request wallet qt) (fun _ : Receipt => True)
    (checkAndSetAllowance wallet (JString fromTokenAddress) (q_to qt)
       swap_amount ;;
     transaction <- swap_transaction wallet qt ;;
     swap_submit transaction)).
  { eapply sat_bind.
    - apply checkAndSetAllowance_sat; simpl; auto.
    - intros _ _. eapply sat_bind;
        [apply swap_transaction_sat; simpl; auto|].
      intros t [Hto [Hdata Hlimit]].
      apply swap_submit_sat; simpl; auto. }
  destruct (run_sat Hsat w) as [Hlog _].
  rewrite Forall_forall in Hlog. exact (Hlog r Hin).
Qed.

(** ** What a normal return of the reconciliation accounts for *)

Lemma approvalPromise_reads wallet allowance :
  account read_weight (fun _ : bool => 1) 0 (approvalPromise wallet allowance).
Proof.
  unfold approvalPromise.
  destruct (token allowance) as [tok|]; [|constructor].
  destruct (_ || _); [constructor|].
  destruct (BigNumber_from (neededAllowance allowance)) as [amount|e]; simpl;
    [|constructor].
  constructor. intros [cur|e]; simpl; [|constructor].
  destruct (bn_lt cur amount); simpl;
    [|exact (@account_Ret bool read_weight (fun _ => 1) false)].
  constructor. intros [price|e]; simpl; [|constructor].
  constructor. intros [approveTx|e]; simpl; [|constructor].
  constructor. intros [receipt|e]; simpl; [|constructor].
  exact (@account_Ret bool read_weight (fun _ => 1) true).
Qed.

Lemma approvalPromise_confirms wallet allowance :
  account unconfirmed_weight (fun _ : bool => 0) 0
    (approvalPromise wallet allowance).
Proof.
  unfold approvalPromise.
  destruct (token allowance) as [tok|]; [|constructor].
  destruct (_ || _); [constructor|].
  destruct (BigNumber_from (neededAllowance allowance)) as [amount|e]; simpl;
    [|constructor].
  constructor. intros [cur|e]; simpl; [|constructor].
  destruct (bn_lt cur amount); simpl;
    [|exact (@account_Ret bool unconfirmed_weight (fun _ => 0) false)].
  constructor. intros [price|e]; simpl; [|constructor].
  constructor. intros [approveTx|e]; simpl; [|constructor].
  constructor. intros [receipt|e]; simpl; [|constructor].
  exact (@account_Ret bool unconfirmed_weight (fun _ => 0) true).
Qed.

Lemma approvalPromises_account (c : Request -> Z) (final : bool -> Z) wallet
    entries :
  (forall allowance, account c final 0 (approvalPromise wallet allowance)) ->
  Forall2 (account c final) (repeat 0 (List.length entries))
    (map (approvalPromise wallet) entries).
Proof.
  intros Hone. induction entries as [|a entries IH]; simpl; constructor;
    auto.
Qed.

Lemma zsum_repeat_0 (n : nat) : zsum (repeat 0 n) = 0.
Proof. induction n; simpl; auto. Qed.

Lemma zsum_map_const {A} (c : Z) (l : list A) :
  zsum (map (fun _ => c) l) = c * Z.of_nat (List.length l).
Proof.
  induction l as [|a l IH]; [simpl; lia|].
  change (c + zsum (map (fun _ : A => c) l)
          = c * Z.of_nat (S (List.length l))).
  rewrite IH. lia.
Qed.

Lemma approvalPromise_thrown wallet allowance :
  incomplete allowance = true \/
  (exists e, BigNumber_from (neededAllowance allowance) = Err e) ->
  exists e, approvalPromise wallet allowance = Throw e.
Proof.
  intros [Hinc | [e He]]; [now apply approvalPromise_incomplete|].
  unfold approvalPromise.
  destruct (token allowance) as [tok|]; [|eauto].
  destruct (_ || _); [eauto|]. rewrite He. simpl. eauto.
Qed.

(** A normal return on a non-empty array is a fulfilled [Promise.all]. *)
Lemma handleRequiredAllowances_fulfilled sched wallet entries (w : World)
    v w1 log :
  handleRequiredAllowances sched wallet (Some entries) w = (Ok v, w1, log) ->
  (entries = [] /\ log = []) \/
  exists bs,
    promise_all sched (map (approvalPromise wallet) entries) w
      = (Ok bs, w1, log).
Proof.
  unfold handleRequiredAllowances.
  destruct entries as [|a0 entries0]; [intros Hrun; inversion Hrun; auto|].
  cbn [List.length Nat.eqb]. unfold bind_run.
  destruct (promise_all sched _ w) as [[[bs|e] w2] l2]; [|discriminate].
  simpl. intros Hrun. inversion Hrun; subst. rewrite app_nil_r. eauto.
Qed.

(** X5.  When [handleRequiredAllowances] returns normally, then whatever
    the schedule: the allowance of every entry has been read, once each;
    every approval that was sent has had its confirmation awaited; and
    every entry was complete with a [neededAllowance] that [BigNumber.from]
    accepts. *)
Theorem reconciliation_return_accounts_for_every_entry :
  forall sched wallet entries (w : World) v w1 log,
    handleRequiredAllowances sched wallet (Some entries) w = (Ok v, w1, log) ->
    count_reads log = List.length entries /\
    count_approvals log = count_waits log /\
    forall allowance, In allowance entries ->
      incomplete allowance = false /\
      exists amount, BigNumber_from (neededAllowance allowance) = Ok amount.
Proof.
  intros sched wallet entries w v w1 log Hrun.
  split; [|split].
  - destruct (handleRequiredAllowances_fulfilled _ _ _ _ Hrun)
      as [[-> ->] | [bs Hall]]; [reflexivity|].
    destruct (promise_all_account sched w
                (@approvalPromises_account _ _ wallet entries
                   (approvalPromise_reads wallet)) Hall) as [Hsum Hlen].
    rewrite zsum_repeat_0, zsum_map_const, tally_read_weight in Hsum.
    rewrite length_map in Hlen. lia.
  - destruct (handleRequiredAllowances_fulfilled _ _ _ _ Hrun)
      as [[-> ->] | [bs Hall]]; [reflexivity|].
    destruct (promise_all_account sched w
                (@approvalPromises_account _ _ wallet entries
                   (approvalPromise_confirms wallet)) Hall) as [Hsum _].
    rewrite zsum_repeat_0, zsum_map_const, tally_unconfirmed_weight in Hsum.
    lia.
  - intros allowance Hin.
    destruct (incomplete allowance) eqn:Hinc.
    + destruct (handleRequiredAllowances_incomplete sched wallet entries
                  allowance w Hin Hinc) as [e He].
      rewrite He in Hrun. discriminate.
    + split; [reflexivity|].
      destruct (BigNumber_from (neededAllowance allowance)) as [amount|e]
        eqn:Hfrom; [eauto|].
      destruct (approvalPromise_thrown wallet allowance) as [e' He'];
        [right; eauto|].
      destruct (first_rejection_In (map (approvalPromise wallet) entries) e')
        as [e'' He'']; [rewrite <- He'; apply in_map, Hin|].
      destruct (handleRequiredAllowances_fulfilled _ _ _ _ Hrun)
        as [[-> _] | [bs Hall]]; [contradiction|].
      rewrite (promise_all_rejected sched _ w He'') in Hall. discriminate.
Qed.

(** ** The three phases of a run *)

(** A rebalancing run with transaction data present: the allowances, then
    the building of the transaction, then its submission; an error in one
    phase ends the run. *)
Lemma executeWalletRebalancing_phases sched wallet rebalancingData
    (w : World) :
  truthy (txHandler rebalancingData) = true ->
  truthy (txData rebalancingData) = true ->
  executeWalletRebalancing sched wallet rebalancingData w =
  let '(ra, wa, la) :=
    handleRequiredAllowances sched wallet
      (requiredAllowances rebalancingData) w in
  match ra with
  | Err e => (Err e, wa, la)
  | Ok _ =>
      let '(rb, wb, lb) :=
        run (rebalancing_transaction wallet rebalancingData) wa in
      match rb with
      | Err e => (Err e, wb, la ++ lb)
      | Ok t =>
          let '(rs, ws, ls) := run (rebalancing_submit t) wb in
          (match rs with
           | Ok receipt => Ok (Some receipt)
           | Err e => Err e
           end, ws, la ++ lb ++ ls)
      end
  end.
Proof.
  intros Hhandler Hpayload. unfold executeWalletRebalancing.
  rewrite Hhandler, Hpayload. cbn [negb orb]. unfold bind_run at 1.
  destruct (handleRequiredAllowances sched wallet _ w) as [[[v|e] wa] la];
    [|reflexivity].
  cbv beta. rewrite run_bind. unfold bind_run at 1.
  destruct (run (rebalancing_transaction wallet rebalancingData) wa)
    as [[[t|e] wb] lb]; [|reflexivity].
  rewrite run_bind. unfold bind_run.
  destruct (run (rebalancing_submit t) wb) as [[[receipt|e] ws] ls];
    simpl; rewrite ?app_nil_r; reflexivity.
Qed.

(** The same for the single swap. *)
Lemma swapWithThirtyOneThird_phases wallet quoteData qt (w : World) :
  transaction quoteData = Some qt ->
  run (swapWithThirtyOneThird wallet quoteData) w =
  let '(ra, wa, la) :=
    run (checkAndSetAllowance wallet (JString fromTokenAddress) (q_to qt)
           swap_amount) w in
  match ra with
  | Err e => (Err e, wa, la)
  | Ok _ =>
      let '(rb, wb, lb) := run (swap_transaction wallet qt) wa in
      match rb with
      | Err e => (Err e, wb, la ++ lb)
      | Ok t =>
          let '(rs, ws, ls) := run (swap_submit t) wb in
          (rs, ws, la ++ lb ++ ls)
      end
  end.
Proof.
  intros Hqt. unfold swapWithThirtyOneThird. rewrite Hqt.
  rewrite run_bind. unfold bind_run at 1.
  destruct (run (checkAndSetAllowance _ _ _ _) w) as [[[b|e] wa] la];
    [|reflexivity].
  rewrite run_bind. unfold bind_run.
  destruct (run (swap_transaction wallet qt) wa) as [[[t|e] wb] lb];
    [|reflexivity].
  destruct (run (swap_submit t) wb) as [[rs ws] ls]. reflexivity.
Qed.

Lemma count_signs_app (l1 l2 : list Request) :
  count_signs (l1 ++ l2) = (count_signs l1 + count_signs l2)%nat.
Proof.
  unfold count_signs. rewrite filter_app, length_app. reflexivity.
Qed.

Lemma count_sends_app (l1 l2 : list Request) :
  count_sends (l1 ++ l2) = (count_sends l1 + count_sends l2)%nat.
Proof.
  unfold count_sends. rewrite filter_app, length_app. reflexivity.
Qed.

Lemma no_submission_counts (l : list Request) :
  Forall (fun r => is_sign r = false /\ is_send r = false) l ->
  count_signs l = 0%nat /\ count_sends l = 0%nat.
Proof.
  unfold count_signs, count_sends.
  induction 1 as [|r l [Hsign Hsend] _ [IH1 IH2]]; simpl; [auto|].
  rewrite Hsign, Hsend. auto.
Qed.

Lemma allowance_calls_no_submission (l : list Request) :
  forallb is_allowance_call l = true ->
  Forall (fun r => is_sign r = false /\ is_send r = false) l.
Proof.
  intros Hall. rewrite forallb_forall in Hall. apply Forall_forall.
  intros r Hr. specialize (Hall r Hr). destruct r; try discriminate; auto.
Qed.

Lemma retry_counts (raise : Transaction -> BigNumber) (t : Transaction)
    (w : World) :
  let log :=
    snd (run (try_catch (signSendWait t)
                (fun error =>
                   if gas_limit_error error
                   then signSendWait (set_gasLimit t (raise t))
                   else Throw error)) w) in
  (count_signs log <= 2)%nat /\ (count_sends log <= 2)%nat.
Proof.
  rewrite run_retry.
  pose proof (signSendWait_log t w) as [Hsign Hsend].
  destruct (run (signSendWait t) w) as [[[receipt|error] w1] l1];
    simpl in Hsign, Hsend; unfold count_signs, count_sends.
  - simpl. rewrite Hsign. simpl. lia.
  - destruct (gas_limit_error error).
    + pose proof (signSendWait_log (set_gasLimit t (raise t)) w1)
        as [Hsign2 Hsend2].
      destruct (run (signSendWait _) w1) as [[r2 w2] l2].
      simpl in *. rewrite !filter_app, !length_app, Hsign, Hsign2.
      simpl. lia.
    + simpl. rewrite Hsign. simpl. lia.
Qed.

Lemma rebalancing_submit_counts (t : Transaction) (w : World) :
  (count_signs (snd (run (rebalancing_submit t) w)) <= 2)%nat /\
  (count_sends (snd (run (rebalancing_submit t) w)) <= 2)%nat.
Proof.
  exact (retry_counts (fun t => bn_div (bn_mul (gasLimit t) 150) 100) t w).
Qed.

Lemma swap_submit_counts (t : Transaction) (w : World) :
  (count_signs (snd (run (swap_submit t) w)) <= 2)%nat /\
  (count_sends (snd (run (swap_submit t) w)) <= 2)%nat.
Proof.
  exact (retry_counts (fun _ => 750000) t w).
Qed.

(** X6.  No run signs or sends more than twice: in both flows, whatever
    the schedule and the gateway, at most two [signTransaction] and at most
    two [sendTransaction] requests are made. *)
Theorem at_most_two_submissions :
  forall wallet (w : World),
    (forall sched rebalancingData,
       let log :=
         snd (executeWalletRebalancing sched wallet rebalancingData w) in
       (count_signs log <= 2)%nat /\ (count_sends log <= 2)%nat) /\
    (forall quoteData,
       let log := snd (run (swapWithThirtyOneThird wallet quoteData) w) in
       (count_signs log <= 2)%nat /\ (count_sends log <= 2)%nat).
Proof.
  intros wallet w. split.
  - intros sched rebalancingData log. subst log.
    destruct (truthy (txHandler rebalancingData)) eqn:Hhandler;
      [|unfold executeWalletRebalancing; rewrite Hhandler; simpl;
        split; apply Nat.le_0_l].
    destruct (truthy (txData rebalancingData)) eqn:Hpayload;
      [|unfold executeWalletRebalancing; rewrite Hhandler, Hpayload; simpl;
        split; apply Nat.le_0_l].
    rewrite (executeWalletRebalancing_phases sched wallet rebalancingData w
               Hhandler Hpayload).
    pose proof (handleRequiredAllowances_calls sched wallet
                  (requiredAllowances rebalancingData) w) as Hla.
    destruct (handleRequiredAllowances sched wallet _ w)
      as [[ra wa] la]. simpl in Hla.
    destruct (no_submission_counts (allowance_calls_no_submission _ Hla))
      as [Hla1 Hla2].
    destruct ra as [v|e]; [|simpl; lia].
    pose proof (run_sat
      (rebalancing_transaction_sat
         (fun r => is_sign r = false /\ is_send r = false)
         wallet rebalancingData
         (conj eq_refl eq_refl) (fun _ => conj eq_refl eq_refl)
         (conj eq_refl eq_refl) (conj eq_refl eq_refl)) wa) as [Hlb _].
    destruct (run (rebalancing_transaction wallet rebalancingData) wa)
      as [[rb wb] lb]. simpl in Hlb.
    destruct (no_submission_counts Hlb) as [Hlb1 Hlb2].
    destruct rb as [t|e];
      [|simpl; rewrite count_signs_app, count_sends_app; lia].
    pose proof (rebalancing_submit_counts t wb) as Hls.
    destruct (run (rebalancing_submit t) wb) as [[rs ws] ls].
    cbn [snd] in *. rewrite !count_signs_app, !count_sends_app. lia.
  - intros quoteData log. subst log.
    destruct (transaction quoteData) as [qt|] eqn:Hqt;
      [|unfold swapWithThirtyOneThird; rewrite Hqt; simpl;
        split; apply Nat.le_0_l].
    rewrite (swapWithThirtyOneThird_phases wallet quoteData w Hqt).
    pose proof (run_calls_only w
      (checkAndSetAllowance_calls wallet (JString fromTokenAddress)
         (q_to qt) swap_amount)) as Hla.
    destruct (run (checkAndSetAllowance _ _ _ _) w) as [[ra wa] la].
    simpl in Hla.
    destruct (no_submission_counts (allowance_calls_no_submission _ Hla))
      as [Hla1 Hla2].
    destruct ra as [b|e]; [|simpl; lia].
    assert (Hlb : Forall (fun r => is_sign r = false /\ is_send r = false)
                    (snd (run (swap_transaction wallet qt) wa))).
    { exact (proj1 (run_sat
        (swap_transaction_sat
           (fun r => is_sign r = false /\ is_send r = false) wallet qt
           (conj eq_refl eq_refl) (conj eq_refl eq_refl)
           (conj eq_refl eq_refl)) wa)). }
    destruct (run (swap_transaction wallet qt) wa) as [[rb wb] lb].
    simpl in Hlb.
    destruct (no_submission_counts Hlb) as [Hlb1 Hlb2].
    destruct rb as [t|e];
      [|simpl; rewrite count_signs_app, count_sends_app; lia].
    pose proof (swap_submit_counts t wb) as Hls.
    destruct (run (swap_submit t) wb) as [[rs ws] ls].
    cbn [snd] in *. rewrite !count_signs_app, !count_sends_app. lia.
Qed.

(** ** Allowances come first *)

Lemma no_allowance_traffic_tail wallet rebalancingData (w : World) :
  Forall (fun r => is_read r = false /\ is_approve r = false)
    (snd (run (rebalancing_transaction wallet rebalancingData) w)) /\
  forall t (w' : World),
    Forall (fun r => is_read r = false /\ is_approve r = false)
      (snd (run (rebalancing_submit t) w')).
Proof.
  split.
  - exact (proj1 (run_sat
      (rebalancing_transaction_sat
         (fun r => is_read r = false /\ is_approve r = false)
         wallet rebalancingData
         (conj eq_refl eq_refl) (fun _ => conj eq_refl eq_refl)
         (conj eq_refl eq_refl) (conj eq_refl eq_refl)) w)).
  - intros t w'.
    exact (proj1 (run_sat
      (rebalancing_submit_sat
         (fun r => is_read r = false /\ is_approve r = false) t
         (conj eq_refl eq_refl) (conj eq_refl eq_refl)
         (fun _ => conj eq_refl eq_refl) (fun _ => conj eq_refl eq_refl))
      w')).
Qed.

(** X7.  In a rebalancing run with transaction data, whatever the
    schedule and the gateway, the log is the log of
    [handleRequiredAllowances] followed by requests among which there is no
    allowance read and no approval.  If [handleRequiredAllowances] throws,
    the run throws the same error and nothing follows: no gas price,
    estimate, nonce, signature or send is requested. *)
Theorem allowances_settle_before_the_transaction :
  forall sched wallet rebalancingData (w : World),
    truthy (txHandler rebalancingData) = true ->
    truthy (txData rebalancingData) = true ->
    let '(ra, wa, la) :=
      handleRequiredAllowances sched wallet
        (requiredAllowances rebalancingData) w in
    forallb is_allowance_call la = true /\
    match ra with
    | Err e =>
        executeWalletRebalancing sched wallet rebalancingData w
          = (Err e, wa, la)
    | Ok _ =>
        exists rest,
          snd (executeWalletRebalancing sched wallet rebalancingData w)
            = la ++ rest /\
          Forall (fun r => is_read r = false /\ is_approve r = false) rest
    end.
Proof.
  intros sched wallet rebalancingData w Hhandler Hpayload.
  rewrite (executeWalletRebalancing_phases sched wallet rebalancingData w
             Hhandler Hpayload).
  pose proof (handleRequiredAllowances_calls sched wallet
                (requiredAllowances rebalancingData) w) as Hla.
  destruct (handleRequiredAllowances sched wallet _ w) as [[ra wa] la].
  simpl in Hla. split; [exact Hla|].
  destruct ra as [v|e]; [|reflexivity].
  destruct (no_allowance_traffic_tail wallet rebalancingData wa)
    as [Hlb Hsubmit].
  destruct (run (rebalancing_transaction wallet rebalancingData) wa)
    as [[rb wb] lb]. simpl in Hlb.
  destruct rb as [t|e].
  - specialize (Hsubmit t wb).
    destruct (run (rebalancing_submit t) wb) as [[rs ws] ls]. simpl in *.
    exists (lb ++ ls). split; [reflexivity|].
    apply Forall_app. split; assumption.
  - exists lb. split; [reflexivity | exact Hlb].
Qed.

(** X8.  In the single swap, if the allowance check throws - the read,
    the gas price, the approval or its confirmation failed - the swap throws
    the same error having requested nothing else: no nonce, no signature, no
    send. *)
Theorem failed_allowance_check_ends_the_swap :
  forall wallet quoteData qt (w : World) e wa la,
    transaction quoteData = Some qt ->
    run (checkAndSetAllowance wallet (JString fromTokenAddress) (q_to qt)
           swap_amount) w = (Err e, wa, la) ->
    run (swapWithThirtyOneThird wallet quoteData) w = (Err e, wa, la) /\
    count_signs la = 0%nat /\ count_sends la = 0%nat.
Proof.
  intros wallet quoteData qt w e wa la Hqt Hcheck.
  rewrite (swapWithThirtyOneThird_phases wallet quoteData w Hqt), Hcheck.
  split; [reflexivity|].
  pose proof (run_calls_only w
    (checkAndSetAllowance_calls wallet (JString fromTokenAddress)
       (q_to qt) swap_amount)) as Hla.
  rewrite Hcheck in Hla. simpl in Hla.
  exact (no_submission_counts (allowance_calls_no_submission _ Hla)).
Qed.

(** ** Values that do not convert *)

(** X9.  A [txValue] that [BigNumber.from] rejects is found only after
    the allowances: the run first reconciles them, approvals included, and
    then throws the conversion error (or the reconciliation's own), with
    nothing requested beyond the reconciliation.  The same holds in the
    single swap for the quote's [value]: the allowance check, approval
    included, comes first. *)
Theorem conversion_failure_follows_the_allowances :
  forall wallet (w : World) e,
    (forall sched rebalancingData,
       truthy (txHandler rebalancingData) = true ->
       truthy (txData rebalancingData) = true ->
       truthy (txValue rebalancingData) = true ->
       BigNumber_from (txValue rebalancingData) = Err e ->
       executeWalletRebalancing sched wallet rebalancingData w =
       let '(ra, wa, la) :=
         handleRequiredAllowances sched wallet
           (requiredAllowances rebalancingData) w in
       (match ra with Ok _ => Err e | Err e' => Err e' end, wa, la)) /\
    (forall quoteData qt,
       transaction quoteData = Some qt ->
       truthy (q_value qt) = true ->
       BigNumber_from (q_value qt) = Err e ->
       run (swapWithThirtyOneThird wallet quoteData) w =
       let '(ra, wa, la) :=
         run (checkAndSetAllowance wallet (JString fromTokenAddress)
                (q_to qt) swap_amount) w in
       (match ra with Ok _ => Err e | Err e' => Err e' end, wa, la)).
Proof.
  intros wallet w e. split.
  - intros sched rebalancingData Hhandler Hpayload Hvalue Hfrom.
    rewrite (executeWalletRebalancing_phases sched wallet rebalancingData w
               Hhandler Hpayload).
    destruct (handleRequiredAllowances sched wallet _ w) as [[[v|e'] wa] la];
      [|reflexivity].
    unfold rebalancing_transaction. rewrite Hvalue, Hfrom. simpl.
    rewrite app_nil_r. reflexivity.
  - intros quoteData qt Hqt Hvalue Hfrom.
    rewrite (swapWithThirtyOneThird_phases wallet quoteData w Hqt).
    destruct (run (checkAndSetAllowance _ _ _ _) w) as [[[b|e'] wa] la];
      [|reflexivity].
    unfold swap_transaction. rewrite Hvalue, Hfrom. simpl.
    rewrite app_nil_r. reflexivity.
Qed.

(** ** What is returned *)

Lemma signSendWait_returns (t : Transaction) (w : World) receipt w' l :
  run (signSendWait t) w = (Ok receipt, w', l) ->
  exists signedTx txResponse w2,
    l = [SignTransaction t; SendTransaction signedTx; Wait txResponse 1] /\
    respond (Wait txResponse 1) w2 = (Ok receipt, w').
Proof.
  unfold signSendWait. simpl.
  destruct (respond _ w) as [[signedTx|e] w1]; simpl; [|discriminate].
  destruct (respond _ w1) as [[txResponse|e] w2]; simpl; [|discriminate].
  destruct (respond _ w2) as [[receipt0|e] w3] eqn:Hwait; simpl;
    [|discriminate].
  intros Hrun. inversion Hrun; subst. eauto.
Qed.

Lemma retry_returns (raise : Transaction -> BigNumber) (t : Transaction)
    (w : World) receipt w' l :
  run (try_catch (signSendWait t)
         (fun error =>
            if gas_limit_error error
            then signSendWait (set_gasLimit t (raise t))
            else Throw error)) w = (Ok receipt, w', l) ->
  exists before t' signedTx txResponse w2,
    l = before ++
        [SignTransaction t'; SendTransaction signedTx; Wait txResponse 1] /\
    respond (Wait txResponse 1) w2 = (Ok receipt, w').
Proof.
  rewrite run_retry.
  destruct (run (signSendWait t) w) as [[[receipt1|error] w1] l1] eqn:Hfirst.
  - intros Hrun. inversion Hrun; subst.
    destruct (signSendWait_returns _ _ Hfirst)
      as [signedTx [txResponse [w2 [-> Hwait]]]].
    exists [], t, signedTx, txResponse, w2. auto.
  - destruct (gas_limit_error error); [|discriminate].
    destruct (run (signSendWait _) w1) as [[r2 w3] l2] eqn:Hsecond.
    intros Hrun. inversion Hrun; subst.
    destruct (signSendWait_returns _ _ Hsecond)
      as [signedTx [txResponse [w2 [-> Hwait]]]].
    exists l1, (set_gasLimit t (raise t)), signedTx, txResponse, w2. auto.
Qed.

(** X10.  A rebalancing run returns [undefined] only when [txHandler] or
    [txData] is absent, and then it has requested nothing.  When it returns
    a receipt, the run ended by signing a transaction, sending it and
    awaiting one confirmation of what was sent, and the receipt is the
    answer to that wait.  The same holds for the receipt of the single
    swap. *)
Theorem returned_receipt_is_of_the_last_send :
  forall wallet (w : World),
    (forall sched rebalancingData w' log,
       executeWalletRebalancing sched wallet rebalancingData w
         = (Ok None, w', log) ->
       (truthy (txHandler rebalancingData) = false \/
        truthy (txData rebalancingData) = false) /\ log = [] /\ w' = w) /\
    (forall sched rebalancingData receipt w' log,
       executeWalletRebalancing sched wallet rebalancingData w
         = (Ok (Some receipt), w', log) ->
       exists before t signedTx txResponse w2,
         log = before ++
               [SignTransaction t; SendTransaction signedTx;
                Wait txResponse 1] /\
         respond (Wait txResponse 1) w2 = (Ok receipt, w')) /\
    (forall quoteData receipt w' log,
       run (swapWithThirtyOneThird wallet quoteData) w
         = (Ok receipt, w', log) ->
       exists before t signedTx txResponse w2,
         log = before ++
               [SignTransaction t; SendTransaction signedTx;
                Wait txResponse 1] /\
         respond (Wait txResponse 1) w2 = (Ok receipt, w')).
Proof.
  intros wallet w. split; [|split].
  - intros sched rebalancingData w' log Hrun.
    destruct (truthy (txHandler rebalancingData)) eqn:Hhandler;
      [|unfold executeWalletRebalancing in Hrun; rewrite Hhandler in Hrun;
        inversion Hrun; auto].
    destruct (truthy (txData rebalancingData)) eqn:Hpayload;
      [|unfold executeWalletRebalancing in Hrun;
        rewrite Hhandler, Hpayload in Hrun; inversion Hrun; auto].
    rewrite (executeWalletRebalancing_phases sched wallet rebalancingData w
               Hhandler Hpayload) in Hrun.
    destruct (handleRequiredAllowances sched wallet _ w)
      as [[[v|e] wa] la]; [|discriminate].
    destruct (run (rebalancing_transaction wallet rebalancingData) wa)
      as [[[t|e] wb] lb]; [|discriminate].
    destruct (run (rebalancing_submit t) wb) as [[[receipt|e] ws] ls];
      discriminate.
  - intros sched rebalancingData receipt w' log Hrun.
    destruct (truthy (txHandler rebalancingData)) eqn:Hhandler;
      [|unfold executeWalletRebalancing in Hrun; rewrite Hhandler in Hrun;
        discriminate].
    destruct (truthy (txData rebalancingData)) eqn:Hpayload;
      [|unfold executeWalletRebalancing in Hrun;
        rewrite Hhandler, Hpayload in Hrun; discriminate].
    rewrite (executeWalletRebalancing_phases sched wallet rebalancingData w
               Hhandler Hpayload) in Hrun.
    destruct (handleRequiredAllowances sched wallet _ w)
      as [[[v|e] wa] la]; [|discriminate].
    destruct (run (rebalancing_transaction wallet rebalancingData) wa)
      as [[[t|e] wb] lb]; [|discriminate].
    destruct (run (rebalancing_submit t) wb) as [[[receipt0|e] ws] ls]
      eqn:Hsubmit; [|discriminate].
    inversion Hrun; subst.
    destruct (retry_returns
                (fun t => bn_div (bn_mul (gasLimit t) 150) 100) t wb Hsubmit)
      as [before [t' [signedTx [txResponse [w2 [-> Hwait]]]]]].
    exists (la ++ lb ++ before), t', signedTx, txResponse, w2.
    rewrite <- !app_assoc. auto.
  - intros quoteData receipt w' log Hrun.
    destruct (transaction quoteData) as [qt|] eqn:Hqt;
      [|unfold swapWithThirtyOneThird in Hrun; rewrite Hqt in Hrun;
        discriminate].
    rewrite (swapWithThirtyOneThird_phases wallet quoteData w Hqt) in Hrun.
    destruct (run (checkAndSetAllowance _ _ _ _) w) as [[[b|e] wa] la];
      [|discriminate].
    destruct (run (swap_transaction wallet qt) wa) as [[[t|e] wb] lb];
      [|discriminate].
    destruct (run (swap_submit t) wb) as [[rs ws] ls] eqn:Hsubmit.
    inversion Hrun; subst.
    destruct (retry_returns (fun _ => 750000) t wb Hsubmit)
      as [before [t' [signedTx [txResponse [w2 [-> Hwait]]]]]].
    exists (la ++ lb ++ before), t', signedTx, txResponse, w2.
    rewrite <- !app_assoc. auto.
Qed.

(** ** The retry condition and the raised limit *)

(** X14.  The retry condition holds exactly when the error's message
    has "gas limit" or "UNPREDICTABLE_GAS_LIMIT" as a contiguous part, letter
    case included. *)
Theorem retry_condition_is_substring_match :
  forall error : JsError,
    gas_limit_error error = true <->
    (exists a b, message error = (a ++ "gas limit" ++ b)%string) \/
    (exists a b,
       message error = (a ++ "UNPREDICTABLE_GAS_LIMIT" ++ b)%string).
Proof.
  intros error. unfold gas_limit_error. split.
  - intros Hmatch. apply orb_prop in Hmatch as [Hm|Hm];
      [left | right]; exact (includes_inv _ _ Hm).
  - intros [[a [b Hm]] | [a [b Hm]]]; rewrite Hm, includes_infix;
      [reflexivity | apply orb_true_r].
Qed.

(** X15.  The limit of the rebalancing retry, for a first limit that is
    not negative: never below the first, never above one and a half times
    it, above it as soon as the first is at least 2, and equal to it when it
    is 0 or 1. *)
Theorem rebalancing_retry_limit_bounds :
  forall t : Transaction,
    0 <= gasLimit t ->
    let higher :=
      gasLimit (set_gasLimit t (bn_div (bn_mul (gasLimit t) 150) 100)) in
    gasLimit t <= higher /\
    2 * higher <= 3 * gasLimit t /\
    (2 <= gasLimit t -> gasLimit t < higher) /\
    (gasLimit t < 2 -> higher = gasLimit t).
Proof.
  intros t Hg higher. subst higher. unfold set_gasLimit. cbn [gasLimit].
  unfold bn_div, bn_mul.
  rewrite Z.quot_div_nonneg by lia.
  pose proof (Z.div_mod (gasLimit t * 150) 100 ltac:(lia)) as Hdiv.
  pose proof (Z.mod_pos_bound (gasLimit t * 150) 100 ltac:(lia)) as Hmod.
  repeat split; lia.
Qed.

End Flows.

(** * The balance report *)

Section BalanceFacts.

Context {World : Type} `{TokenNode World} `{Units}.

Lemma settles_weaken {A} (P P' : TokenRead -> Prop) (Q Q' : A -> Prop)
    (p : Reading A) :
  (forall r, P r -> P' r) -> (forall a, Q a -> Q' a) ->
  settles P Q p -> settles P' Q' p.
Proof.
  intros HP HQ. induction 1; constructor; auto.
Qed.

Lemma read_settles {A} (P : TokenRead -> Prop) (Q : A -> Prop)
    (p : Reading A) :
  settles P Q p ->
  forall w : World,
    Forall P (snd (read p w)) /\
    (forall a, fst (fst (read p w)) = Ok a -> Q a).
Proof.
  induction 1 as [a Ha|e|r k Hr _ IH]; intros w; simpl.
  - split; [constructor|]. intros a' Heq. inversion Heq; subst. exact Ha.
  - split; [constructor | discriminate].
  - destruct (answer_read r w) as [x w1]. specialize (IH x w1).
    destruct (read (k x) w1) as [[res w2] l]. simpl in *.
    destruct IH as [IH1 IH2]. split; [constructor; assumption | exact IH2].
Qed.

Lemma answer_nth_settles {X A} (P : TokenRead -> Prop) (Q : X -> A -> Prop)
    (i : nat) (xs : list X) (ts : list (Reading A)) (w : World) :
  Forall2 (fun x p => settles P (Q x) p) xs ts ->
  Forall2 (fun x p => settles P (Q x) p) xs (fst (fst (answer_nth i ts w))) /\
  Forall P (snd (answer_nth i ts w)).
Proof.
  intros Hts. revert i. induction Hts as [|x p xs ts Hp Hts IH]; intros i;
    simpl.
  - split; constructor.
  - destruct i as [|i].
    + destruct Hp as [a Ha|e|r k Hr Hk]; simpl.
      * split; repeat constructor; assumption.
      * split; repeat constructor; assumption.
      * destruct (answer_read r w) as [y w1]. simpl.
        split; repeat constructor; auto.
    + specialize (IH i). destruct (answer_nth i ts w) as [[ts' w1] l].
      simpl in *. destruct IH as [IH1 IH2].
      split; [constructor; assumption | assumption].
Qed.

Lemma read_each_settles {X A} (P : TokenRead -> Prop) (Q : X -> A -> Prop)
    (xs : list X) (ts : list (Reading A)) :
  Forall2 (fun x p => settles P (Q x) p) xs ts ->
  forall w : World,
    Forall P (snd (read_each ts w)) /\
    (forall vs, fst (fst (read_each ts w)) = Ok vs -> Forall2 Q xs vs).
Proof.
  induction 1 as [|x p xs ts Hp _ IH]; intros w; simpl.
  - split; [constructor|]. intros vs Heq. inversion Heq. constructor.
  - destruct (read_settles Hp w) as [Hl Hq].
    destruct (read p w) as [[[a|e] w1] l1]; simpl in *;
      [|split; [exact Hl | discriminate]].
    destruct (IH w1) as [Hl2 Hq2].
    destruct (read_each ts w1) as [[[vs0|e] w2] l2]; simpl in *.
    + split; [apply Forall_app; split; assumption|].
      intros vs Heq. inversion Heq; subst. constructor; auto.
    + split; [apply Forall_app; split; assumption | discriminate].
Qed.

Lemma read_all_settles {X A} (P : TokenRead -> Prop) (Q : X -> A -> Prop)
    (sched : list nat) :
  forall (xs : list X) (ts : list (Reading A)) (w : World),
    Forall2 (fun x p => settles P (Q x) p) xs ts ->
    Forall P (snd (read_all sched ts w)) /\
    (forall vs, fst (fst (read_all sched ts w)) = Ok vs -> Forall2 Q xs vs).
Proof.
  induction sched as [|i sched IH]; intros xs ts w Hts; simpl;
    destruct (first_failed ts);
    try (split; [constructor | discriminate]).
  - apply read_each_settles. exact Hts.
  - destruct (@answer_nth_settles X A P Q i xs ts w Hts) as [Hts' Hl].
    destruct (answer_nth i ts w) as [[ts' w1] l1]. simpl in *.
    destruct (IH xs ts' w1 Hts') as [Hl2 Hq].
    destruct (read_all sched ts' w1) as [[r w2] l2]. simpl in *.
    split; [apply Forall_app; split; assumption | exact Hq].
Qed.

(** What one [getTokenBalance] reads and returns. *)
Lemma getTokenBalance_settles tokenAddress walletAddress :
  settles
    (fun r => r = BalanceOf tokenAddress walletAddress \/
              r = Decimals tokenAddress \/ r = Symbol tokenAddress)
    (fun tb => tb_address tb = tokenAddress /\
               formatUnits (tb_balance tb) (tb_decimals tb)
                 = Ok (formattedBalance tb))
    (getTokenBalance tokenAddress walletAddress).
Proof.
  unfold getTokenBalance. simpl.
  constructor; [auto|]. intros [balance|e]; simpl; [|constructor].
  constructor; [auto|]. intros [decimals|e]; simpl; [|constructor].
  constructor; [auto|]. intros [symbol|e]; simpl; [|constructor].
  destruct (formatUnits balance decimals) as [formatted|e] eqn:Hformat;
    simpl; constructor. simpl. auto.
Qed.

Lemma balancePromises_settle walletAddress (tokens sub : list string) :
  (forall t, In t sub -> In t tokens) ->
  Forall2
    (fun token p =>
       settles
         (fun r => exists t, In t tokens /\
                    (r = BalanceOf t walletAddress \/ r = Decimals t \/
                     r = Symbol t))
         (fun tb => tb_address tb = token /\
                    formatUnits (tb_balance tb) (tb_decimals tb)
                      = Ok (formattedBalance tb)) p)
    sub (map (fun token => getTokenBalance token walletAddress) sub).
Proof.
  induction sub as [|token sub IH]; intros Hsub; simpl; constructor.
  - eapply settles_weaken;
      [| |apply (getTokenBalance_settles token walletAddress)].
    + intros r Hr. exists token. split; [apply Hsub; now left | exact Hr].
    + auto.
  - apply IH. intros t Ht. apply Hsub. now right.
Qed.

Lemma checkBalances_positional sched walletAddress tokens (w : World)
    balances w1 log :
  checkBalances sched walletAddress tokens w = (Ok balances, w1, log) ->
  Forall2
    (fun token tb =>
       tb_address tb = token /\
       formatUnits (tb_balance tb) (tb_decimals tb) = Ok (formattedBalance tb))
    tokens balances.
Proof.
  intros Hrun. unfold checkBalances in Hrun.
  destruct (@read_all_settles _ _ _ _ sched _ _ w
              (@balancePromises_settle walletAddress tokens tokens
                 (fun t Ht => Ht))) as [_ Hresults].
  rewrite Hrun in Hresults. exact (Hresults balances eq_refl).
Qed.

(** X11.  When [checkBalances] returns, it returns one record per
    token, in the order of [tokens] whatever the order in which the node
    answered, each with its token's address and with a [formattedBalance]
    that is [formatUnits] of the balance and decimals in the same record. *)
Theorem checkBalances_keeps_the_order_of_tokens :
  forall sched walletAddress tokens (w : World) balances w1 log,
    checkBalances sched walletAddress tokens w = (Ok balances, w1, log) ->
    map tb_address balances = tokens /\
    Forall (fun tb => formatUnits (tb_balance tb) (tb_decimals tb)
                        = Ok (formattedBalance tb)) balances.
Proof.
  intros sched walletAddress tokens w balances w1 log Hrun.
  pose proof (checkBalances_positional _ _ _ _ Hrun) as Hresults.
  clear Hrun.
  induction Hresults as [|token tb tokens0 balances0 [Ht Hf] _ IH]; simpl.
  - split; [reflexivity | constructor].
  - destruct IH as [IH1 IH2]. split; [congruence | constructor; assumption].
Qed.

(** ** How many reads *)

Lemma read_tally_app (c : TokenRead -> Z) (l1 l2 : list TokenRead) :
  read_tally c (l1 ++ l2) = read_tally c l1 + read_tally c l2.
Proof.
  induction l1 as [|r l1 IH]; simpl; [reflexivity | rewrite IH; lia].
Qed.

Lemma read_tally_kind (f : TokenRead -> bool) (l : list TokenRead) :
  read_tally (kind_weight f) l = Z.of_nat (List.length (filter f l)).
Proof.
  induction l as [|r l IH]; [reflexivity|].
  cbn [read_tally filter]. unfold kind_weight at 1.
  destruct (f r); cbn [List.length]; lia.
Qed.

Lemma read_accounts {A} (c : TokenRead -> Z) (final : A -> Z) (n : Z)
    (p : Reading A) :
  read_account c final n p ->
  forall (w : World) a w1 l,
    read p w = (Ok a, w1, l) -> n + read_tally c l = final a.
Proof.
  induction 1 as [a|n e|n r k _ IH]; intros w a' w1 l Hrun; simpl in Hrun.
  - inversion Hrun; subst. simpl. lia.
  - discriminate.
  - destruct (answer_read r w) as [x w0].
    destruct (read (k x) w0) as [[res w2] l0] eqn:Hk.
    inversion Hrun; subst. specialize (IH x w0 a' w1 l0 Hk). simpl. lia.
Qed.

Lemma answer_nth_account {A} (c : TokenRead -> Z) (final : A -> Z) (i : nat)
    (ns : list Z) (ts : list (Reading A)) (w : World) :
  Forall2 (read_account c final) ns ts ->
  exists ns',
    Forall2 (read_account c final) ns' (fst (fst (answer_nth i ts w))) /\
    zsum ns' = zsum ns + read_tally c (snd (answer_nth i ts w)).
Proof.
  intros Hts. revert i. induction Hts as [|n p ns ts Hp Hts IH]; intros i;
    simpl.
  - exists []. split; [constructor | reflexivity].
  - destruct i as [|i].
    + destruct Hp as [a|n e|n r k Hk]; simpl.
      * exists (final a :: ns). split; [repeat constructor; assumption|].
        simpl. lia.
      * exists (n :: ns). split; [repeat constructor; assumption|].
        simpl. lia.
      * destruct (answer_read r w) as [x w1]. simpl.
        exists ((n + c r) :: ns). split; [constructor; auto|]. simpl. lia.
    + destruct (IH i) as [ns' [Hns' Hsum]].
      destruct (answer_nth i ts w) as [[ts' w1] l]. simpl in *.
      exists (n :: ns'). split; [constructor; assumption | simpl; lia].
Qed.

Lemma read_each_account {A} (c : TokenRead -> Z) (final : A -> Z)
    (ns : list Z) (ts : list (Reading A)) :
  Forall2 (read_account c final) ns ts ->
  forall (w : World) vs w1 l,
    read_each ts w = (Ok vs, w1, l) ->
    zsum ns + read_tally c l = zsum (map final vs).
Proof.
  induction 1 as [|n p ns ts Hp Hts IH]; intros w vs w1 l Hrun;
    simpl in Hrun.
  - inversion Hrun; subst. reflexivity.
  - destruct (read p w) as [[[a|e] w0] l0] eqn:Hp0; [|discriminate].
    destruct (read_each ts w0) as [[[vs0|e] w2] l2] eqn:Hts0;
      [|discriminate].
    inversion Hrun; subst.
    pose proof (read_accounts Hp w Hp0) as Ha.
    specialize (IH w0 vs0 w1 l2 Hts0).
    rewrite read_tally_app. simpl. lia.
Qed.

Lemma read_all_account {A} (c : TokenRead -> Z) (final : A -> Z)
    (sched : list nat) :
  forall (ns : list Z) (ts : list (Reading A)) (w : World) vs w1 l,
    Forall2 (read_account c final) ns ts ->
    read_all sched ts w = (Ok vs, w1, l) ->
    zsum ns + read_tally c l = zsum (map final vs).
Proof.
  induction sched as [|i sched IH]; intros ns ts w vs w1 l Hts Hall;
    simpl in Hall; destruct (first_failed ts); try discriminate.
  - eapply read_each_account; eassumption.
  - destruct (answer_nth_account i w Hts) as [ns' [Hns' Hsum]].
    destruct (answer_nth i ts w) as [[ts' w0] l0]. simpl in *.
    destruct (read_all sched ts' w0) as [[r w2] l2] eqn:Hrest.
    inversion Hall; subst.
    specialize (IH ns' ts' w0 vs w1 l2 Hns' Hrest).
    rewrite read_tally_app. lia.
Qed.

(** Each [getTokenBalance] that returns has made one read of each kind. *)
Lemma getTokenBalance_account (f : TokenRead -> bool) tokenAddress
    walletAddress :
  (Z.b2z (f (BalanceOf tokenAddress walletAddress))
   + Z.b2z (f (Decimals tokenAddress)) + Z.b2z (f (Symbol tokenAddress)) = 1) ->
  read_account (kind_weight f) (fun _ : TokenBalance => 1) 0
    (getTokenBalance tokenAddress walletAddress).
Proof.
  intros Hone. unfold getTokenBalance. simpl.
  constructor. intros [balance|e]; simpl; [|constructor].
  constructor. intros [decimals|e]; simpl; [|constructor].
  constructor. intros [symbol|e]; simpl; [|constructor].
  destruct (formatUnits balance decimals) as [formatted|e]; simpl;
    [|constructor].
  assert (Hn : kind_weight f (BalanceOf tokenAddress walletAddress)
               + kind_weight f (Decimals tokenAddress)
               + kind_weight f (Symbol tokenAddress) = 1).
  { unfold kind_weight.
    destruct (f (BalanceOf tokenAddress walletAddress)),
             (f (Decimals tokenAddress)), (f (Symbol tokenAddress));
      simpl in *; lia. }
  rewrite Hn.
  exact (@read_account_Got _ (kind_weight f) (fun _ => 1)
           (mkTokenBalance tokenAddress balance decimals symbol formatted)).
Qed.

Lemma balancePromises_account (f : TokenRead -> bool) walletAddress
    (tokens : list string) :
  (forall token,
     read_account (kind_weight f) (fun _ : TokenBalance => 1) 0
       (getTokenBalance token walletAddress)) ->
  Forall2 (read_account (kind_weight f) (fun _ : TokenBalance => 1))
    (repeat 0 (List.length tokens))
    (map (fun token => getTokenBalance token walletAddress) tokens).
Proof.
  intros Hone. induction tokens as [|token tokens IH]; simpl; constructor;
    auto.
Qed.

(** X12.  [checkBalances] only ever reads: [balanceOf] of the given wallet
    address, [decimals] and [symbol], and only of tokens of the list.  When
    it returns, it has made exactly one read of each of the three kinds for
    every token of the list - none for an empty list - whatever the order
    of the answers. *)
Theorem checkBalances_reads_each_token_once :
  forall sched walletAddress tokens (w : World),
    Forall (fun r => exists t, In t tokens /\
                       (r = BalanceOf t walletAddress \/ r = Decimals t \/
                        r = Symbol t))
      (snd (checkBalances sched walletAddress tokens w)) /\
    forall balances w1 log,
      checkBalances sched walletAddress tokens w = (Ok balances, w1, log) ->
      List.length balances = List.length tokens /\
      List.length (filter is_balanceOf log) = List.length tokens /\
      List.length (filter is_decimals log) = List.length tokens /\
      List.length (filter is_symbol log) = List.length tokens.
Proof.
  intros sched walletAddress tokens w. split.
  - unfold checkBalances.
    exact (proj1 (@read_all_settles _ _ _ _ sched _ _ w
                    (@balancePromises_settle walletAddress tokens tokens
                       (fun t Ht => Ht)))).
  - intros balances w1 log Hrun.
    assert (Hlen : List.length balances = List.length tokens).
    { symmetry.
      exact (Forall2_length (checkBalances_positional _ _ _ _ Hrun)). }
    split; [exact Hlen|].
    unfold checkBalances in Hrun.
    assert (Hkind : forall f,
      (forall token,
         read_account (kind_weight f) (fun _ : TokenBalance => 1) 0
           (getTokenBalance token walletAddress)) ->
      List.length (filter f log) = List.length tokens).
    { intros f Hf.
      pose proof (read_all_account sched w
                    (@balancePromises_account f walletAddress tokens Hf) Hrun)
        as Hsum.
      rewrite zsum_repeat_0, zsum_map_const, read_tally_kind in Hsum. lia. }
    repeat split; apply Hkind; intros token;
      apply getTokenBalance_account; reflexivity.
Qed.

(** ** One token that cannot be read *)

Lemma read_fails {A} (p : Reading A) :
  fails p -> forall w : World, exists e, fst (fst (read p w)) = Err e.
Proof.
  induction 1 as [e|r k _ IH]; intros w; simpl; [eauto|].
  specialize (IH w). destruct (answer_read r w) as [x w1]. simpl in IH.
  destruct (IH w1) as [e He].
  destruct (read (k x) w1) as [[res w2] l]. simpl in *. eauto.
Qed.

Lemma answer_nth_fails {A} (i : nat) (ts : list (Reading A)) (w : World) :
  Exists fails ts -> Exists fails (fst (fst (answer_nth i ts w))).
Proof.
  intros Hts. revert i. induction Hts as [p ts Hp|p ts Hts IH]; intros i;
    simpl.
  - destruct i as [|i].
    + destruct Hp as [e|r k Hk]; simpl.
      * left. constructor.
      * specialize (Hk w). destruct (answer_read r w) as [x w1]. simpl in *.
        left. exact Hk.
    + destruct (answer_nth i ts w) as [[ts' w1] l]. simpl. left. exact Hp.
  - destruct i as [|i].
    + destruct (answer_one p w) as [[p' w1] l]. simpl. right. exact Hts.
    + specialize (IH i). destruct (answer_nth i ts w) as [[ts' w1] l].
      simpl in *. right. exact IH.
Qed.

Lemma read_each_fails {A} (ts : list (Reading A)) :
  Exists fails ts ->
  forall w : World, exists e, fst (fst (read_each ts w)) = Err e.
Proof.
  induction 1 as [p ts Hp|p ts _ IH]; intros w; simpl.
  - destruct (read_fails Hp w) as [e He].
    destruct (read p w) as [[r w1] l1]. simpl in He. subst r. simpl. eauto.
  - destruct (read p w) as [[[a|e] w1] l1]; simpl; [|eauto].
    destruct (IH w1) as [e He].
    destruct (read_each ts w1) as [[rs w2] l2]. simpl in *. subst rs.
    simpl. eauto.
Qed.

Lemma read_all_fails {A} (sched : list nat) :
  forall (ts : list (Reading A)) (w : World),
    Exists fails ts -> exists e, fst (fst (read_all sched ts w)) = Err e.
Proof.
  induction sched as [|i sched IH]; intros ts w Hts; simpl;
    destruct (first_failed ts); simpl; eauto.
  - apply read_each_fails, Hts.
  - pose proof (answer_nth_fails i w Hts) as Hts'.
    destruct (answer_nth i ts w) as [[ts' w1] l1]. simpl in *.
    destruct (IH ts' w1 Hts') as [e He].
    destruct (read_all sched ts' w1) as [[r w2] l2]. simpl in *. eauto.
Qed.

Lemma getTokenBalance_fails tokenAddress walletAddress :
  (forall w : World, exists e,
     fst (answer_read (BalanceOf tokenAddress walletAddress) w) = Err e) \/
  (forall w : World, exists e,
     fst (answer_read (Decimals tokenAddress) w) = Err e) \/
  (forall w : World, exists e,
     fst (answer_read (Symbol tokenAddress) w) = Err e) ->
  fails (getTokenBalance tokenAddress walletAddress).
Proof.
  intros Hbad. unfold getTokenBalance. simpl.
  constructor. intros w0.
  destruct (fst (answer_read (BalanceOf tokenAddress walletAddress) w0))
    as [balance|e] eqn:Hbalance; simpl; [|constructor].
  constructor. intros w1.
  destruct (fst (answer_read (Decimals tokenAddress) w1))
    as [decimals|e] eqn:Hdecimals; simpl; [|constructor].
  constructor. intros w2.
  destruct (fst (answer_read (Symbol tokenAddress) w2))
    as [symbol|e] eqn:Hsymbol; simpl; [|constructor].
  exfalso. destruct Hbad as [Hb | [Hd | Hs]].
  - destruct (Hb w0) as [e He]. congruence.
  - destruct (Hd w1) as [e He]. congruence.
  - destruct (Hs w2) as [e He]. congruence.
Qed.

(** X13.  One token is enough to lose the whole report: if the node
    never answers one of the three reads of a token of the list,
    [checkBalances] throws, whatever the other tokens answer and whatever
    the order of the answers. *)
Theorem checkBalances_fails_on_one_unreadable_token :
  forall sched walletAddress tokens token (w : World),
    In token tokens ->
    (forall w' : World, exists e,
       fst (answer_read (BalanceOf token walletAddress) w') = Err e) \/
    (forall w' : World, exists e,
       fst (answer_read (Decimals token) w') = Err e) \/
    (forall w' : World, exists e,
       fst (answer_read (Symbol token) w') = Err e) ->
    exists e, fst (fst (checkBalances sched walletAddress tokens w)) = Err e.
Proof.
  intros sched walletAddress tokens token w Hin Hbad.
  unfold checkBalances. apply read_all_fails.
  apply Exists_exists.
  exists (getTokenBalance token walletAddress). split.
  - apply in_map_iff. eauto.
  - apply getTokenBalance_fails, Hbad.
Qed.

End BalanceFacts.

(** * The further properties on the sample gateways *)

Lemma checkAndSetAllowance_result_witness :
  let read :=
    Allowance (tok_address Sample.grt) (wallet_address Sample.wallet)
      Sample.router in
  exists w' log,
    run (checkAndSetAllowance Sample.wallet (tok_address Sample.grt)
           Sample.router 10) Sample.world0 = (Ok true, w', log) /\
    exists currentAllowance w1,
      respond read Sample.world0 = (Ok currentAllowance, w1) /\
      currentAllowance < 10 /\
      exists price approveTx,
        log = [read; GetGasPrice;
               Approve (tok_address Sample.grt) Sample.router MaxUint256
                 100000 price;
               Wait approveTx 1].
Proof.
  intros read. eexists. eexists. split; [vm_compute; reflexivity|].
  exact (@checkAndSetAllowance_result Sample.World Sample.gateway
           Sample.wallet (tok_address Sample.grt) Sample.router 10
           Sample.world0 true _ _ eq_refl).
Defined.

Lemma approvals_only_for_required_entries_witness :
  let r :=
    Approve (tok_address Sample.grt) Sample.router MaxUint256 100000 5 in
  In r (snd (executeWalletRebalancing [] Sample.wallet Scenario.plan
               Sample.world0)) /\
  exists entries allowance,
    requiredAllowances Scenario.plan = Some entries /\
    In allowance entries /\
    entry_request Sample.wallet allowance r.
Proof.
  intros r. split; [vm_compute; tauto|].
  apply (@approvals_only_for_required_entries Sample.World Sample.gateway
           Sample.ethers [] Sample.wallet Scenario.plan Sample.world0 r).
  - vm_compute. tauto.
  - right. reflexivity.
Defined.

Lemma signed_transaction_carries_plan_witness :
  let t :=
    mkTransaction Sample.router (JString "0x12aa3caf") 0 120000 5 7 1 in
  In (SignTransaction t)
     (snd (executeWalletRebalancing [] Sample.wallet Scenario.plan
             Sample.world0)) /\
  to t = txHandler Scenario.plan /\ data t = txData Scenario.plan.
Proof.
  intros t.
  assert (Hin : In (SignTransaction t)
            (snd (executeWalletRebalancing [] Sample.wallet Scenario.plan
                    Sample.world0))) by (vm_compute; tauto).
  split; [exact Hin|].
  destruct (@signed_transaction_carries_plan Sample.World Sample.gateway
              Sample.ethers [] Sample.wallet Scenario.plan Sample.world0 t Hin)
    as [Hto [Hdata _]].
  split; assumption.
Defined.

Lemma swap_requests_follow_quote_witness :
  let r :=
    Approve (JString fromTokenAddress) Sample.router MaxUint256 100000 5 in
  In r (snd (run (swapWithThirtyOneThird Sample.wallet Scenario.quote)
               Sample.world0)) /\
  exists qt,
    transaction Scenario.quote = Some qt /\ swap_request Sample.wallet qt r.
Proof.
  intros r. split; [vm_compute; tauto|].
  apply (@swap_requests_follow_quote Sample.World Sample.gateway
           Sample.ethers Sample.wallet Scenario.quote Sample.world0 r).
  vm_compute. tauto.
Defined.

Lemma reconciliation_return_accounts_for_every_entry_witness :
  let entries :=
    [Scenario.grt_needed (JNumber 10); Scenario.grt_needed (JNumber 20)] in
  exists v w1 log,
    handleRequiredAllowances [1%nat; 0%nat; 1%nat] Sample.wallet
      (Some entries) Sample.world0 = (Ok v, w1, log) /\
    count_reads log = 2%nat /\
    count_approvals log = count_waits log.
Proof.
  intros entries. eexists. eexists. eexists.
  split; [vm_compute; reflexivity|].
  destruct (@reconciliation_return_accounts_for_every_entry Sample.World
              Sample.gateway Sample.ethers [1%nat; 0%nat; 1%nat]
              Sample.wallet entries Sample.world0 _ _ _ eq_refl)
    as [Hreads [Hconfirmed _]].
  split; [exact Hreads | exact Hconfirmed].
Defined.

Lemma allowances_settle_before_the_transaction_witness :
  truthy (txHandler Scenario.plan) = true /\
  truthy (txData Scenario.plan) = true /\
  let '(ra, wa, la) :=
    handleRequiredAllowances [] Sample.wallet
      (requiredAllowances Scenario.plan) Sample.world0 in
  forallb is_allowance_call la = true /\
  match ra with
  | Err e =>
      executeWalletRebalancing [] Sample.wallet Scenario.plan Sample.world0
        = (Err e, wa, la)
  | Ok _ =>
      exists rest,
        snd (executeWalletRebalancing [] Sample.wallet Scenario.plan
               Sample.world0) = la ++ rest /\
        Forall (fun r => is_read r = false /\ is_approve r = false) rest
  end.
Proof.
  split; [reflexivity|]. split; [reflexivity|].
  apply (@allowances_settle_before_the_transaction Sample.World
           Sample.gateway Sample.ethers [] Sample.wallet Scenario.plan
           Sample.world0); reflexivity.
Defined.

Lemma failed_allowance_check_ends_the_swap_witness :
  let refused :=
    Error "insufficient funds for intrinsic transaction cost" in
  let la :=
    [Allowance (JString fromTokenAddress) (wallet_address Sample.wallet)
       Sample.router;
     GetGasPrice;
     Approve (JString fromTokenAddress) Sample.router MaxUint256 100000 5] in
  run (checkAndSetAllowance Sample.wallet (JString fromTokenAddress)
         Sample.router swap_amount) (Refusing.refusing 0)
    = (Err refused, Refusing.refusing 0, la) /\
  run (swapWithThirtyOneThird Sample.wallet Scenario.quote)
    (Refusing.refusing 0) = (Err refused, Refusing.refusing 0, la).
Proof.
  intros refused la. split; [reflexivity|].
  apply (@failed_allowance_check_ends_the_swap Refusing.World
           Refusing.gateway Sample.ethers Sample.wallet Scenario.quote
           (mkQuoteTransaction Sample.router (JString "0x12aa3caf")
              JUndefined (JNumber 9))
           (Refusing.refusing 0) refused (Refusing.refusing 0) la);
    reflexivity.
Defined.

Lemma conversion_failure_follows_the_allowances_witness :
  let unreadable :=
    mkRebalancingData Sample.router (JString "0x12aa3caf") (JString "1.5")
      (Some [Scenario.grt_needed (JNumber 10)]) JUndefined in
  exists w' log,
    executeWalletRebalancing [] Sample.wallet unreadable Sample.world0
      = (Err (Error "invalid BigNumber value"), w', log) /\
    count_approvals log = 1%nat /\ count_signs log = 0%nat.
Proof.
  intros unreadable. eexists. eexists. split.
  - rewrite (proj1 (@conversion_failure_follows_the_allowances Sample.World
               Sample.gateway Sample.ethers Sample.wallet Sample.world0
               (Error "invalid BigNumber value"))
               [] unreadable eq_refl eq_refl eq_refl eq_refl).
    vm_compute. reflexivity.
  - vm_compute. split; reflexivity.
Defined.

Lemma returned_receipt_is_of_the_last_send_witness :
  let sent := mkTxResponse "0xb2" in
  let final :=
    Sample.mkWorld MaxUint256 5 (Ok 100000) [] in
  executeWalletRebalancing [] Sample.wallet Scenario.plan Sample.world0
    = (Ok (Some (Sample.receipt_of sent)), final,
       snd (executeWalletRebalancing [] Sample.wallet Scenario.plan
              Sample.world0)) /\
  exists before t signedTx txResponse w2,
    snd (executeWalletRebalancing [] Sample.wallet Scenario.plan
           Sample.world0)
      = before ++
        [SignTransaction t; SendTransaction signedTx; Wait txResponse 1] /\
    respond (Wait txResponse 1) w2 = (Ok (Sample.receipt_of sent), final).
Proof.
  intros sent final.
  assert (Hrun :
    executeWalletRebalancing [] Sample.wallet Scenario.plan Sample.world0
    = (Ok (Some (Sample.receipt_of sent)), final,
       snd (executeWalletRebalancing [] Sample.wallet Scenario.plan
              Sample.world0))) by (vm_compute; reflexivity).
  split; [exact Hrun|].
  exact (proj1 (proj2 (@returned_receipt_is_of_the_last_send Sample.World
                         Sample.gateway Sample.ethers Sample.wallet
                         Sample.world0))
           [] Scenario.plan _ _ _ Hrun).
Defined.

Lemma rebalancing_retry_limit_bounds_witness :
  0 <= gasLimit Scenario.pending /\
  gasLimit Scenario.pending
  < gasLimit (set_gasLimit Scenario.pending
                (bn_div (bn_mul (gasLimit Scenario.pending) 150) 100)).
Proof.
  assert (Hg : 0 <= gasLimit Scenario.pending) by (simpl; lia).
  split; [exact Hg|].
  apply (proj1 (proj2 (proj2 (rebalancing_retry_limit_bounds
                                Scenario.pending Hg)))).
  simpl. lia.
Defined.

Lemma checkBalances_keeps_the_order_of_tokens_witness :
  let tokens := [SampleTokens.usdt; SampleTokens.weth] in
  exists balances w1 log,
    checkBalances [1%nat; 0%nat; 0%nat; 1%nat]
      (wallet_address Sample.wallet) tokens 0%nat = (Ok balances, w1, log) /\
    map tb_address balances = tokens.
Proof.
  intros tokens. eexists. eexists. eexists.
  split; [vm_compute; reflexivity|].
  exact (proj1 (@checkBalances_keeps_the_order_of_tokens nat
                  SampleTokens.node SampleTokens.units
                  [1%nat; 0%nat; 0%nat; 1%nat]
                  (wallet_address Sample.wallet) tokens 0%nat _ _ _ eq_refl)).
Defined.

Lemma checkBalances_reads_each_token_once_witness :
  let tokens := [SampleTokens.usdt; SampleTokens.weth] in
  exists balances w1 log,
    checkBalances [1%nat; 0%nat; 0%nat; 1%nat]
      (wallet_address Sample.wallet) tokens 0%nat = (Ok balances, w1, log) /\
    List.length (filter is_balanceOf log) = 2%nat /\
    List.length log = 6%nat.
Proof.
  intros tokens. eexists. eexists. eexists.
  split; [vm_compute; reflexivity|].
  destruct (proj2 (@checkBalances_reads_each_token_once nat
                     SampleTokens.node SampleTokens.units
                     [1%nat; 0%nat; 0%nat; 1%nat]
                     (wallet_address Sample.wallet) tokens 0%nat)
              _ _ _ eq_refl) as [_ [Hbalance _]].
  split; [exact Hbalance | reflexivity].
Defined.

Lemma checkBalances_fails_on_one_unreadable_token_witness :
  let tokens := [SampleTokens.usdt; SampleTokens.unknown] in
  In SampleTokens.unknown tokens /\
  exists e,
    fst (fst (checkBalances [0%nat; 0%nat; 0%nat]
                (wallet_address Sample.wallet) tokens 0%nat)) = Err e.
Proof.
  intros tokens. split; [right; left; reflexivity|].
  apply (@checkBalances_fails_on_one_unreadable_token nat SampleTokens.node
           SampleTokens.units [0%nat; 0%nat; 0%nat]
           (wallet_address Sample.wallet) tokens SampleTokens.unknown 0%nat).
  - right; left; reflexivity.
  - right; left. intros w'. eexists. reflexivity.
Defined.
